(** * Topic and reply backend (lib/subject/index.ts, topic part)

    Shallow embedding of the topic engine: the ranking transform
    [scoredUpdateTime], the thread assembler [fetchDetail], the topic
    listing [fetchTopicList] and the reply creation [createTopicReply].

    - JavaScript numbers are IEEE 754 binary64 values ([spec_float] with
      53 bits of precision), with the operations of ECMA-262.
    - Integer columns of the rows ([id], [replies], [dateline], ...) are [Z];
      they enter number arithmetic through [Z2num], which is exact up to 2^53.
    - The repositories and [fetchUserX] are an interface: a program is a tree
      of store requests ([Prog]), run against any implementation of [Store].
    - The display policy ([CanViewTopicContent], [ListTopicDisplays],
      [filterReply]) is imported by the source from another module and is a
      parameter here ([Display]). *)

From Stdlib Require Import ZArith List Bool Ascii String Sorted Permutation Lia.
From Stdlib Require Import SpecFloat.
From stdpp Require Import gmap pretty.

Open Scope Z_scope.

(* ------------------------------------------------------------------ *)
(** * JavaScript numbers *)
(* ------------------------------------------------------------------ *)

Module JS.

Definition number : Type := spec_float.

Definition prec : Z := 53.
Definition emax : Z := 1024.

Definition NaN : number := S754_nan.

(** An integer as a number (round to nearest even beyond 2^53). *)
Definition Z2num (z : Z) : number := binary_normalize prec emax z 0 false.

Definition add : number -> number -> number := SFadd prec emax.
Definition sub : number -> number -> number := SFsub prec emax.
Definition mul : number -> number -> number := SFmul prec emax.
Definition div : number -> number -> number := SFdiv prec emax.

(** [a < b], [a <= b] and [a > b] of JavaScript: false when a side is NaN. *)
Definition lt (a b : number) : bool := SFltb a b.
Definition le (a b : number) : bool := SFleb a b.
Definition gt (a b : number) : bool := SFltb b a.

Definition isNaN (a : number) : bool :=
  match a with S754_nan => true | _ => false end.

(** The literals of the source: [0.1] and [1.8] are the doubles nearest to
    1/10 and 18/10, which a correctly rounded division produces. *)
Definition lit_0_1 : number := Eval vm_compute in div (Z2num 1) (Z2num 10).
Definition lit_1_8 : number := Eval vm_compute in div (Z2num 18) (Z2num 10).

(** [Math.trunc]: the integral part, toward zero; NaN, the infinities and
    the zeros are returned as they are. *)
Definition Math_trunc (x : number) : number :=
  match x with
  | S754_finite s m e =>
      if 0 <=? e then x
      else match Z.pos m / 2 ^ (- e) with
           | Z0 => S754_zero s
           | q => binary_normalize prec emax (if s then - q else q) 0 false
           end
  | _ => x
  end.

(** [Math.min] of two arguments: NaN when either is NaN, and -0 below +0. *)
Definition Math_min (a b : number) : number :=
  match SFcompare a b with
  | None => NaN
  | Some Lt => a
  | Some Gt => b
  | Some Eq => match a with S754_zero true => a | _ => b end
  end.

(** The integer value of a finite number with no fractional part. *)
Definition integral (m : positive) (e : Z) : option Z :=
  if 0 <=? e then Some (Z.pos m * 2 ^ e)
  else if Z.pos m mod 2 ^ (- e) =? 0 then Some (Z.pos m / 2 ^ (- e))
  else None.

Definition is_integral (x : number) : bool :=
  match x with
  | S754_finite _ m e => match integral m e with Some _ => true | None => false end
  | S754_zero _ => true
  | _ => false
  end.

Definition is_odd_integer (x : number) : bool :=
  match x with
  | S754_finite _ m e => match integral m e with Some z => Z.odd z | None => false end
  | _ => false
  end.

Definition sign (x : number) : bool :=
  match x with
  | S754_zero s | S754_infinity s | S754_finite s _ _ => s
  | S754_nan => false
  end.

(** What ECMA-262 leaves to the implementation: [Math.pow] on a finite
    non-zero base and a finite non-zero exponent (integral when the base is
    negative) is "an implementation-approximated value" of the power. *)
Class MathImpl : Type := { pow_approx : number -> number -> number }.

(** [Math.pow(base, exponent)], Number::exponentiate of ECMA-262: the
    special cases are fixed by the standard, the rest is [pow_approx]. *)
Definition Math_pow {M : MathImpl} (base exponent : number) : number :=
  match exponent, base with
  | S754_nan, _ => NaN
  | S754_zero _, _ => Z2num 1
  | _, S754_nan => NaN
  | _, S754_infinity false =>
      if sign exponent then S754_zero false else S754_infinity false
  | _, S754_infinity true =>
      if sign exponent then S754_zero (is_odd_integer exponent)
      else S754_infinity (is_odd_integer exponent)
  | _, S754_zero false =>
      if sign exponent then S754_infinity false else S754_zero false
  | _, S754_zero true =>
      if sign exponent then S754_infinity (is_odd_integer exponent)
      else S754_zero (is_odd_integer exponent)
  | S754_infinity se, S754_finite _ _ _ =>
      match SFcompare (SFabs base) (Z2num 1) with
      | Some Gt => if se then S754_zero false else S754_infinity false
      | Some Lt => if se then S754_infinity false else S754_zero false
      | _ => NaN
      end
  | S754_finite _ _ _, S754_finite sb _ _ =>
      if sb && negb (is_integral exponent) then NaN
      else pow_approx base exponent
  end.

End JS.

(** ** A reference [Math.pow]

    exp (y * ln x) by series in fixed point with 160 fractional bits,
    rounded once to a double.  Used to evaluate the code on concrete inputs;
    the general theorems hold for every [MathImpl]. *)
Module PowRef.
Import JS.

Definition fx_bits : Z := 160.
Definition fx_one : Z := 2 ^ fx_bits.
Definition fx_mul (a b : Z) : Z := Z.shiftr (a * b) fx_bits.

(** t + t^3/3 + t^5/5 + ..., [n] terms, for |t| <= 1/3. *)
Fixpoint atanh_series (n : nat) (t2 pw k : Z) : Z :=
  match n with
  | O => 0
  | S n' => pw / k + atanh_series n' t2 (fx_mul pw t2) (k + 2)
  end.

Definition fx_atanh (t : Z) : Z := atanh_series 64 (fx_mul t t) t 1.

Definition fx_ln2 : Z := Eval vm_compute in 2 * fx_atanh (fx_one / 3).

(** ln (m * 2^e) = (e + d) ln 2 + 2 atanh ((f - 1) / (f + 1)), f = m / 2^d in [1, 2). *)
Definition fx_ln (m : positive) (e : Z) : Z :=
  let d := Z.log2 (Z.pos m) in
  let h := 2 ^ d in
  (e + d) * fx_ln2 + 2 * fx_atanh (((Z.pos m - h) * fx_one) / (Z.pos m + h)).

(** 1 + r + r^2/2! + ..., [n] terms, for |r| <= (ln 2) / 2. *)
Fixpoint exp_series (n : nat) (r term i : Z) : Z :=
  match n with
  | O => 0
  | S n' => term + exp_series n' r (fx_mul term r / i) (i + 1)
  end.

Definition fx_exp (r : Z) : Z := exp_series 48 r fx_one 1.

Definition scale2 (z e : Z) : Z := if 0 <=? e then z * 2 ^ e else z / 2 ^ (- e).

(** (m * 2^e) ^ (+-my * 2^ey) for a positive base. *)
Definition pow_pos (m : positive) (e : Z) (sy : bool) (my : positive) (ey : Z) : number :=
  let l := scale2 ((if sy then Z.neg my else Z.pos my) * fx_ln m e) ey in
  let k := (2 * l + fx_ln2) / (2 * fx_ln2) in
  if 1100 <? k then S754_infinity false
  else if k <? -1200 then S754_zero false
  else binary_normalize prec emax (fx_exp (l - k * fx_ln2)) (k - fx_bits) false.

Definition pow_ref (base exponent : number) : number :=
  match base, exponent with
  | S754_finite s m e, S754_finite sy my ey =>
      let r := pow_pos m e sy my ey in
      if s && is_odd_integer exponent then SFopp r else r
  | _, _ => NaN
  end.

Definition ref_math : MathImpl := {| pow_approx := pow_ref |}.

End PowRef.

(* ------------------------------------------------------------------ *)
(** * Data model *)
(* ------------------------------------------------------------------ *)

(** [const enum Type { group = 'group', subject = 'subject' }] *)
Inductive Type_ : Set := group | subject.

Definition Type_eqb (a b : Type_) : bool :=
  match a, b with
  | group, group | subject, subject => true
  | _, _ => false
  end.

Definition Type_name (t : Type_) : string :=
  match t with group => "group" | subject => "subject" end.

(** [const enum ReplyState]; the column itself is an integer. *)
Module ReplyState.
Definition Normal : Z := 0.
Definition AdminCloseTopic : Z := 1.
Definition AdminReopen : Z := 2.
Definition AdminPin : Z := 3.
Definition AdminMerge : Z := 4.
Definition AdminSilentTopic : Z := 5.
Definition UserDelete : Z := 6.
Definition AdminDelete : Z := 7.
End ReplyState.

(** [const enum TopicDisplay] *)
Module TopicDisplay.
Definition Ban : Z := 0.
Definition Normal : Z := 1.
Definition Review : Z := 2.
End TopicDisplay.

(** A row of the group topic table ([entity.GroupTopic]), with the columns
    the source reads or writes. *)
Module GroupTopic.
Record t : Type := mk {
  id : Z;
  gid : Z;
  creatorID : Z;
  title : string;
  replies : Z;
  dateline : Z;
  lastpost : Z;
  state : Z;
  display : Z
}.
End GroupTopic.

(** A row of the group post table ([entity.GroupPost]). *)
Module GroupPost.
Record t : Type := mk {
  id : Z;
  topicID : Z;
  uid : Z;
  related : Z;
  content : string;
  state : Z;
  dateline : Z
}.
End GroupPost.

(** [IUser], with the fields graphql/types/user.ts exposes. *)
Module IUser.
Record t : Type := mk {
  ID : Z;
  username : string;
  nickname : string;
  img : string
}.
End IUser.

(** [IBaseReply], which is also [ISubReply]. *)
Module ISubReply.
Record t : Type := mk {
  id : Z;
  repliedTo : Z;
  creatorID : Z;
  text : string;
  state : Z;
  createdAt : Z
}.
End ISubReply.

(** [interface IReply extends IBaseReply { replies: ISubReply[] }] *)
Module IReply.
Record t : Type := mk {
  id : Z;
  replies : list ISubReply.t;
  creatorID : Z;
  text : string;
  state : Z;
  createdAt : Z;
  repliedTo : Z
}.
End IReply.

Module ITopicDetails.
Record t : Type := mk {
  id : Z;
  title : string;
  parentID : Z;
  text : string;
  display : Z;
  state : Z;
  replies : list IReply.t;
  creatorID : Z;
  createdAt : Z
}.
End ITopicDetails.

Module ITopic.
Record t : Type := mk {
  id : Z;
  parentID : Z;
  creatorID : Z;
  title : string;
  createdAt : Z;
  updatedAt : Z;
  repliesCount : Z
}.
End ITopic.

Module IPost.
Record t : Type := mk {
  id : Z;
  type : Type_;
  user : IUser.t;
  createdAt : Z;
  state : Z;
  topicID : Z;
  content : string
}.
End IPost.

(** [Page]: both fields optional, [{ limit = 30, offset = 0 }] at the use. *)
Module Page.
Record t : Type := mk { limit : option Z; offset : option Z }.
End Page.

(* ------------------------------------------------------------------ *)
(** * The store interface and programs over it *)
(* ------------------------------------------------------------------ *)

Inductive Error : Type :=
| UnimplementedError (msg : string)
| UnexpectedNotFoundError (msg : string)
| EntityNotFoundError
| QueryFailedError.

Inductive Direction : Set := asc | desc.

(** [{ gid: id, display: In(displays) }] *)
Record TopicWhere : Type := { where_gid : Z; where_display_in : list Z }.

(** The object [GroupPostRepo.save] receives. *)
Record NewPost : Type := {
  new_topicID : Z;
  new_content : string;
  new_uid : Z;
  new_related : Z;
  new_state : Z;
  new_dateline : Z
}.

(** [topicUpdate]: [replies] is always set, [dateline] may stay [undefined]. *)
Record TopicUpdate : Type := {
  upd_replies : Z;
  upd_dateline : option JS.number
}.

(** One request to the store (or to the user service). *)
Inductive Request : Type :=
| GroupTopicRepo_findOne (id : Z)
| GroupTopicRepo_count (where_ : TopicWhere)
| GroupTopicRepo_find (where_ : TopicWhere) (order_dateline : Direction) (skip take : Z)
| GroupTopicRepo_update (id : Z) (u : TopicUpdate)
| GroupPostRepo_find (topicID : Z)
| GroupPostRepo_save (p : NewPost)
| fetchUserX (uid : Z).

Definition Response (r : Request) : Type :=
  match r with
  | GroupTopicRepo_findOne _ => option GroupTopic.t
  | GroupTopicRepo_count _ => Z
  | GroupTopicRepo_find _ _ _ _ => list GroupTopic.t
  | GroupTopicRepo_update _ _ => unit
  | GroupPostRepo_find _ => list GroupPost.t
  | GroupPostRepo_save _ => GroupPost.t
  | fetchUserX _ => IUser.t
  end.

(** An asynchronous function of the source: it returns, throws, awaits a
    request, or runs a block in [AppDataSource.transaction]. *)
Inductive Prog : Type -> Type :=
| Ret {A : Type} (a : A) : Prog A
| Throw {A : Type} (e : Error) : Prog A
| Call {A : Type} (r : Request) (k : Response r -> Prog A) : Prog A
| Transaction {A B : Type} (body : Prog B) (k : B -> Prog A) : Prog A.

Fixpoint bind {A B : Type} (p : Prog A) : (A -> Prog B) -> Prog B :=
  match p in Prog T return (T -> Prog B) -> Prog B with
  | Ret a => fun f => f a
  | Throw e => fun _ => Throw e
  | Call r k => fun f => Call r (fun x => bind (k x) f)
  | Transaction body k => fun f => Transaction body (fun b => bind (k b) f)
  end.

Definition await (r : Request) : Prog (Response r) := Call r Ret.

Definition transaction {B : Type} (body : Prog B) : Prog B := Transaction body Ret.

Declare Scope prog_scope.
Delimit Scope prog_scope with prog.
Notation "'let*' x ':=' p 'in' q" := (bind p (fun x => q))
  (at level 10, x name, p at level 100, q at level 200) : prog_scope.

Inductive Result (A : Type) : Type :=
| Ok (a : A)
| Err (e : Error).
Arguments Ok {A} a.
Arguments Err {A} e.

(** An implementation of the repositories over a state [S]: the answer to a
    request and the state after it, or a failure. *)
Class Store (S : Type) : Type :=
  { handle : forall r : Request, S -> Result (Response r * S) }.

(** What a run of a program gives: its outcome, the store after it and the
    requests made, in order. *)
Record Run (A S : Type) : Type :=
  { outcome : Result A; store : S; accesses : list Request }.
Arguments outcome {A S} _.
Arguments store {A S} _.
Arguments accesses {A S} _.

(** A transaction that throws leaves the store as it was when it began. *)
Fixpoint run {S : Type} {St : Store S} {A : Type} (p : Prog A) (s : S) : Run A S :=
  match p in Prog T return Run T S with
  | Ret a => {| outcome := Ok a; store := s; accesses := [] |}
  | Throw e => {| outcome := Err e; store := s; accesses := [] |}
  | Call r k =>
      match handle r s with
      | Ok (x, s') =>
          let o := run (k x) s' in
          {| outcome := outcome o; store := store o; accesses := r :: accesses o |}
      | Err e => {| outcome := Err e; store := s; accesses := [r] |}
      end
  | Transaction body k =>
      let b := run body s in
      match outcome b with
      | Ok x =>
          let o := run (k x) (store b) in
          {| outcome := outcome o; store := store o; accesses := accesses b ++ accesses o |}
      | Err e => {| outcome := Err e; store := s; accesses := accesses b |}
      end
  end.

(** The display policy, imported by the source from lib/topic/display,
    which is not among the sources at hand: a parameter of the functions
    that call it. *)
Class Display : Type := {
  IAuth : Type;
  CanViewTopicContent : IAuth -> GroupTopic.t -> bool;
  ListTopicDisplays : IAuth -> list Z;
  filterReply : IReply.t -> IReply.t
}.

(* ------------------------------------------------------------------ *)
(** * The source functions *)
(* ------------------------------------------------------------------ *)

Section Source.
Context {M : JS.MathImpl} {D : Display}.
Import JS.
Open Scope prog_scope.

(** The object [sub] built for a post in the loop of [fetchDetail]. *)
Definition sub (x : GroupPost.t) : ISubReply.t :=
  {| ISubReply.id := GroupPost.id x;
     ISubReply.repliedTo := GroupPost.related x;
     ISubReply.creatorID := GroupPost.uid x;
     ISubReply.text := GroupPost.content x;
     ISubReply.state := GroupPost.state x;
     ISubReply.createdAt := GroupPost.dateline x |}.

(** The loop of [fetchDetail] that fills [subReplies]: every post with a
    non-zero [related] is pushed, in order, on the array under that key,
    which is created when absent. *)
Definition subReplies (replies : list GroupPost.t) : gmap Z (list ISubReply.t) :=
  fold_left
    (fun (acc : gmap Z (list ISubReply.t)) (x : GroupPost.t) =>
       <[GroupPost.related x := default [] (acc !! GroupPost.related x) ++ [sub x]]> acc)
    (List.filter (fun x => negb (GroupPost.related x =? 0)) replies)
    ∅.

(** The function mapped over the top-level posts: the reply with the
    sub-replies found under its id, or none. *)
Definition toReply (subReplies : gmap Z (list ISubReply.t)) (x : GroupPost.t) : IReply.t :=
  {| IReply.id := GroupPost.id x;
     IReply.replies := default [] (subReplies !! GroupPost.id x);
     IReply.creatorID := GroupPost.uid x;
     IReply.text := GroupPost.content x;
     IReply.state := GroupPost.state x;
     IReply.createdAt := GroupPost.dateline x;
     IReply.repliedTo := GroupPost.related x |}.

(** [topLevelReplies] of [fetchDetail]. *)
Definition topLevelReplies (replies : list GroupPost.t) : list IReply.t :=
  map filterReply
    (map (toReply (subReplies replies))
         (List.filter (fun x => GroupPost.related x =? 0) replies)).

(** [fetchDetail(auth, type, id)]; [null] is [None]. *)
Definition fetchDetail (auth : IAuth) (type : Type_) (id : Z)
  : Prog (option ITopicDetails.t) :=
  let* topic := await (GroupTopicRepo_findOne id) in
  match topic with
  | None => Ret None
  | Some topic =>
      if negb (CanViewTopicContent auth topic) then Ret None
      else
        let* replies := await (GroupPostRepo_find (GroupTopic.id topic)) in
        match replies with
        | [] =>
            Throw (UnexpectedNotFoundError
                     ("top reply of topic(" ++ Type_name type ++ ") " ++ pretty id)%string)
        | top :: replies =>
            Ret (Some
                   {| ITopicDetails.id := GroupTopic.id topic;
                      ITopicDetails.title := GroupTopic.title topic;
                      ITopicDetails.parentID := GroupTopic.gid topic;
                      ITopicDetails.text := GroupPost.content top;
                      ITopicDetails.display := GroupTopic.display topic;
                      ITopicDetails.state := GroupTopic.state topic;
                      ITopicDetails.replies := topLevelReplies replies;
                      ITopicDetails.creatorID := GroupPost.uid top;
                      ITopicDetails.createdAt := GroupPost.dateline top |})
        end
  end.

(** The row-to-summary map of [fetchTopicList]. *)
Definition toITopic (x : GroupTopic.t) : ITopic.t :=
  {| ITopic.id := GroupTopic.id x;
     ITopic.parentID := GroupTopic.gid x;
     ITopic.creatorID := GroupTopic.creatorID x;
     ITopic.title := GroupTopic.title x;
     ITopic.createdAt := GroupTopic.dateline x;
     ITopic.updatedAt := GroupTopic.lastpost x;
     ITopic.repliesCount := GroupTopic.replies x |}.

(** [fetchTopicList(auth, type, id, { limit = 30, offset = 0 })] *)
Definition fetchTopicList (auth : IAuth) (type : Type_) (id : Z) (page : Page.t)
  : Prog (Z * list ITopic.t) :=
  let limit := default 30 (Page.limit page) in
  let offset := default 0 (Page.offset page) in
  if negb (Type_eqb type group)
  then Throw (UnimplementedError ("topic type " ++ Type_name type)%string)
  else
    let where_ := {| where_gid := id; where_display_in := ListTopicDisplays auth |} in
    let* total := await (GroupTopicRepo_count where_) in
    let* topics := await (GroupTopicRepo_find where_ desc offset limit) in
    Ret (total, map toITopic topics).

(** [scoredUpdateTime(timestamp, type, main_info)] *)
Definition scoredUpdateTime (timestamp : number) (type : Type_) (main_info : GroupTopic.t)
  : number :=
  if Type_eqb type group
     && existsb (Z.eqb (GroupTopic.id main_info)) [364]
     && (0 <? GroupTopic.replies main_info)
  then
    let created_at := Z2num (GroupTopic.dateline main_info) in
    let created_hours := div (JS.sub timestamp created_at) (Z2num 3600) in
    let gravity := lit_1_8 in
    let base_score :=
      mul (div (Math_pow (add created_hours lit_0_1) gravity)
               (Z2num (GroupTopic.replies main_info)))
          (Z2num 200) in
    let scored_lastpost := Math_trunc (JS.sub timestamp base_score) in
    Math_min scored_lastpost timestamp
  else timestamp.

(** [createTopicReply({topicType, topicID, userID, content, parentID, state})];
    [now] is the reading [dayjs().unix()] of the clock. *)
Definition createTopicReply (now : Z) (topicType : Type_) (topicID userID : Z)
    (content : string) (parentID : Z) (state : option Z) : Prog IPost.t :=
  let state := default ReplyState.Normal state in
  if negb (Type_eqb topicType group)
  then Throw (UnimplementedError "creating group reply")
  else
    let* p :=
      transaction
        (let* found := await (GroupTopicRepo_findOne topicID) in
         match found with
         | None => Throw EntityNotFoundError
         | Some topic =>
             let* post :=
               await (GroupPostRepo_save
                        {| new_topicID := topicID;
                           new_content := content;
                           new_uid := userID;
                           new_related := parentID;
                           new_state := state;
                           new_dateline := now |}) in
             let topicUpdate :=
               {| upd_replies := GroupTopic.replies topic + 1;
                  upd_dateline :=
                    if negb (GroupTopic.state topic =? ReplyState.AdminSilentTopic)
                    then Some (scoredUpdateTime (Z2num now) topicType topic)
                    else None |} in
             let* _ := await (GroupTopicRepo_update (GroupTopic.id topic) topicUpdate) in
             Ret post
         end) in
    let* user := await (fetchUserX (GroupPost.uid p)) in
    Ret {| IPost.id := GroupPost.id p;
           IPost.type := group;
           IPost.user := user;
           IPost.createdAt := GroupPost.dateline p;
           IPost.state := GroupPost.state p;
           IPost.topicID := GroupPost.topicID p;
           IPost.content := GroupPost.content p |}.

End Source.

(* ------------------------------------------------------------------ *)
(** * An in-memory store *)
(* ------------------------------------------------------------------ *)

(** Tables as lists of rows in insertion order.  [ORDER BY] is a stable
    sort on the requested key alone; rows with equal keys come in the
    order of the scan, which the request does not fix: [forward] scans the
    table as stored, [backward] from its end. *)
Module Mem.

Record t : Type := mk {
  topics : list GroupTopic.t;
  posts : list GroupPost.t;
  users : list IUser.t
}.

Definition matches (w : TopicWhere) (x : GroupTopic.t) : bool :=
  (GroupTopic.gid x =? where_gid w)
  && existsb (Z.eqb (GroupTopic.display x)) (where_display_in w).

(** [a] may stand before [b] under the direction [d]. *)
Definition in_order (d : Direction) (a b : Z) : bool :=
  match d with asc => a <=? b | desc => b <=? a end.

Fixpoint insert_sorted (d : Direction) (x : GroupTopic.t) (l : list GroupTopic.t)
  : list GroupTopic.t :=
  match l with
  | [] => [x]
  | y :: l' =>
      if in_order d (GroupTopic.dateline x) (GroupTopic.dateline y)
      then x :: l
      else y :: insert_sorted d x l'
  end.

Definition order_by_dateline (d : Direction) (l : list GroupTopic.t) : list GroupTopic.t :=
  fold_right (insert_sorted d) [] l.

(** The integer a number column receives; none for NaN, an infinity or a
    fraction. *)
Definition num2Z (v : JS.number) : option Z :=
  match v with
  | S754_zero _ => Some 0
  | S754_finite s m e =>
      match JS.integral m e with
      | Some z => Some (if s then - z else z)
      | None => None
      end
  | _ => None
  end.

Definition set_replies_dateline (r d : Z) (x : GroupTopic.t) : GroupTopic.t :=
  {| GroupTopic.id := GroupTopic.id x;
     GroupTopic.gid := GroupTopic.gid x;
     GroupTopic.creatorID := GroupTopic.creatorID x;
     GroupTopic.title := GroupTopic.title x;
     GroupTopic.replies := r;
     GroupTopic.dateline := d;
     GroupTopic.lastpost := GroupTopic.lastpost x;
     GroupTopic.state := GroupTopic.state x;
     GroupTopic.display := GroupTopic.display x |}.

(** A partial update: a column whose value is [undefined] is not written. *)
Definition apply_update (u : TopicUpdate) (d : option Z) (x : GroupTopic.t) : GroupTopic.t :=
  set_replies_dateline (upd_replies u) (default (GroupTopic.dateline x) d) x.

Definition next_id (l : list GroupPost.t) : Z :=
  1 + fold_right Z.max 0 (map GroupPost.id l).

Definition handle_with (backward : bool) (r : Request) (s : t)
  : Result (Response r * t) :=
  match r return Result (Response r * t) with
  | GroupTopicRepo_findOne id =>
      Ok (List.find (fun x => GroupTopic.id x =? id) (topics s), s)
  | GroupTopicRepo_count w =>
      Ok (Z.of_nat (length (List.filter (matches w) (topics s))), s)
  | GroupTopicRepo_find w d skip take =>
      if (skip <? 0) || (take <? 0) then Err QueryFailedError
      else
        let rows := List.filter (matches w) (topics s) in
        let scanned := if backward then rev rows else rows in
        Ok (firstn (Z.to_nat take) (skipn (Z.to_nat skip) (order_by_dateline d scanned)), s)
  | GroupTopicRepo_update id u =>
      match upd_dateline u with
      | Some v =>
          match num2Z v with
          | Some d =>
              Ok (tt, mk (map (fun x => if GroupTopic.id x =? id
                                        then apply_update u (Some d) x else x) (topics s))
                         (posts s) (users s))
          | None => Err QueryFailedError
          end
      | None =>
          Ok (tt, mk (map (fun x => if GroupTopic.id x =? id
                                    then apply_update u None x else x) (topics s))
                     (posts s) (users s))
      end
  | GroupPostRepo_find topicID =>
      Ok (List.filter (fun x => GroupPost.topicID x =? topicID) (posts s), s)
  | GroupPostRepo_save p =>
      let row :=
        {| GroupPost.id := next_id (posts s);
           GroupPost.topicID := new_topicID p;
           GroupPost.uid := new_uid p;
           GroupPost.related := new_related p;
           GroupPost.content := new_content p;
           GroupPost.state := new_state p;
           GroupPost.dateline := new_dateline p |} in
      Ok (row, mk (topics s) (posts s ++ [row]) (users s))
  | fetchUserX uid =>
      match List.find (fun u => IUser.ID u =? uid) (users s) with
      | Some u => Ok (u, s)
      | None => Err EntityNotFoundError
      end
  end.

Definition forward : Store t := {| handle := handle_with false |}.
Definition backward : Store t := {| handle := handle_with true |}.

End Mem.

(** What [order: { dateline: d }] asks of a store: the rows it returns are
    in the direction [d] on [dateline]. *)
Definition dateline_ordered (d : Direction) (a b : GroupTopic.t) : Prop :=
  match d with
  | asc => GroupTopic.dateline a <= GroupTopic.dateline b
  | desc => GroupTopic.dateline b <= GroupTopic.dateline a
  end.

Class OrderedStore (S : Type) {St : Store S} : Prop :=
  find_ordered :
    forall w d skip take s l s',
      handle (GroupTopicRepo_find w d skip take) s = Ok (l, s') ->
      StronglySorted (dateline_ordered d) l.

(* ------------------------------------------------------------------ *)
(** * Statements of the ranking transform *)
(* ------------------------------------------------------------------ *)

(** The gravity-decay value: the age in hours from [dateline], gravity 1.8,
    the decay scaled by 200 over the reply count, the result truncated and
    capped by the event time. *)
Definition gravity_decay {M : JS.MathImpl} (eventTime : JS.number) (topic : GroupTopic.t)
  : JS.number :=
  let ageHours :=
    JS.div (JS.sub eventTime (JS.Z2num (GroupTopic.dateline topic))) (JS.Z2num 3600) in
  let decay :=
    JS.mul (JS.div (JS.Math_pow (JS.add ageHours JS.lit_0_1) JS.lit_1_8)
                   (JS.Z2num (GroupTopic.replies topic)))
           (JS.Z2num 200) in
  JS.Math_min (JS.Math_trunc (JS.sub eventTime decay)) eventTime.

(** The allow-list of the ranking transform, the literal [[364]]. *)
Definition ranking_allow_list : list Z := [364].

(** The base [1 + 0.1] of the one-hour scenario, the double nearest to 1.1. *)
Definition lit_1_1 : JS.number := Eval vm_compute in JS.add (JS.Z2num 1) JS.lit_0_1.

(** The reference value of [Math.pow(1.1, 1.8)] is 5346463519028519 * 2^-52
    (1.18715...); an implementation is accurate there when its value is
    within 1024 units in the last place of it. *)
Definition pow_1_1_mantissa : Z := 5346463519028519.

Definition accurate_at_1_1 (M : JS.MathImpl) : Prop :=
  exists d : Z,
    -1024 <= d <= 1024 /\
    JS.pow_approx lit_1_1 JS.lit_1_8
    = S754_finite false (Z.to_pos (pow_1_1_mantissa + d)) (-52).

(** [forall i in lo .. lo + n - 1, f i], by enumeration. *)
Fixpoint all_from (f : Z -> bool) (lo : Z) (n : nat) : bool :=
  match n with
  | O => true
  | S n' => f lo && all_from f (lo + 1) n'
  end.

(* ------------------------------------------------------------------ *)
(** * Concrete rows and stores *)
(* ------------------------------------------------------------------ *)

Module Examples.

Definition topic (id gid replies dateline state display : Z) : GroupTopic.t :=
  {| GroupTopic.id := id; GroupTopic.gid := gid; GroupTopic.creatorID := 7;
     GroupTopic.title := "topic"; GroupTopic.replies := replies;
     GroupTopic.dateline := dateline; GroupTopic.lastpost := dateline;
     GroupTopic.state := state; GroupTopic.display := display |}.

Definition post (id topicID uid related : Z) (content : string) : GroupPost.t :=
  {| GroupPost.id := id; GroupPost.topicID := topicID; GroupPost.uid := uid;
     GroupPost.related := related; GroupPost.content := content;
     GroupPost.state := ReplyState.Normal; GroupPost.dateline := 1000 + id |}.

Definition user (id : Z) (name : string) : IUser.t :=
  {| IUser.ID := id; IUser.username := name; IUser.nickname := name; IUser.img := "" |}.

(** A display policy: the actor is a moderator or not; a plain actor sees
    only [Normal] topics; deleted replies lose their text. *)
Definition blank (x : ISubReply.t) : ISubReply.t :=
  if (ISubReply.state x =? ReplyState.UserDelete) || (ISubReply.state x =? ReplyState.AdminDelete)
  then {| ISubReply.id := ISubReply.id x; ISubReply.repliedTo := ISubReply.repliedTo x;
          ISubReply.creatorID := ISubReply.creatorID x; ISubReply.text := "";
          ISubReply.state := ISubReply.state x; ISubReply.createdAt := ISubReply.createdAt x |}
  else x.

Definition policy : Display :=
  {| IAuth := bool;
     CanViewTopicContent := fun moderator t => moderator || (GroupTopic.display t =? TopicDisplay.Normal);
     ListTopicDisplays := fun moderator =>
       if moderator then [TopicDisplay.Ban; TopicDisplay.Normal; TopicDisplay.Review]
       else [TopicDisplay.Normal];
     filterReply := fun r =>
       {| IReply.id := IReply.id r;
          IReply.replies := map blank (IReply.replies r);
          IReply.creatorID := IReply.creatorID r;
          IReply.text :=
            if (IReply.state r =? ReplyState.UserDelete) || (IReply.state r =? ReplyState.AdminDelete)
            then "" else IReply.text r;
          IReply.state := IReply.state r;
          IReply.createdAt := IReply.createdAt r;
          IReply.repliedTo := IReply.repliedTo r |} |}.

(** The topic of the one-hour scenario: created at 1000, one reply so far,
    its own id and its group both 364. *)
Definition scenario : GroupTopic.t := topic 364 364 1 1000 ReplyState.Normal TopicDisplay.Normal.

(** Topic 364 of group 1, and topic 1 of group 364. *)
Definition topic_364_of_1 : GroupTopic.t := topic 364 1 1 1000 ReplyState.Normal TopicDisplay.Normal.
Definition topic_1_of_364 : GroupTopic.t := topic 1 364 1 1000 ReplyState.Normal TopicDisplay.Normal.

(** A topic dated 1000 seconds after the reply that reaches it. *)
Definition ahead : GroupTopic.t := topic 364 1 1 2000 ReplyState.Normal TopicDisplay.Normal.

(** A sunk topic, a banned topic, and two topics with one dateline. *)
Definition sunk : GroupTopic.t := topic 10 1 2 1000 ReplyState.AdminSilentTopic TopicDisplay.Normal.
Definition banned : GroupTopic.t := topic 11 1 0 1500 ReplyState.Normal TopicDisplay.Ban.
Definition twin_a : GroupTopic.t := topic 20 2 0 5000 ReplyState.Normal TopicDisplay.Normal.
Definition twin_b : GroupTopic.t := topic 21 2 0 5000 ReplyState.Normal TopicDisplay.Normal.
Definition older : GroupTopic.t := topic 22 2 0 4000 ReplyState.Normal TopicDisplay.Normal.

(** The posts of topic 364: the top post 1, the replies 2 and 5, the
    sub-replies 3 and 6 of 2 and 7 of 5, then 4, a reply to the sub-reply
    3, and 8, a reply to the top post by its id. *)
Definition thread : list GroupPost.t :=
  [ post 1 364 7 0 "top"; post 2 364 8 0 "first"; post 3 364 7 2 "re first";
    post 4 364 8 3 "re re first"; post 5 364 7 0 "second"; post 6 364 8 2 "re first again";
    post 7 364 8 5 "re second"; post 8 364 7 1 "re top";
    post 9 10 7 0 "sunk top"; post 12 11 7 0 "banned top" ].

Definition db : Mem.t :=
  {| Mem.topics := [topic_364_of_1; sunk; banned; older; twin_a; twin_b];
     Mem.posts := thread;
     Mem.users := [user 7 "alice"; user 8 "bob"] |}.

End Examples.

(* ------------------------------------------------------------------ *)
(** * Vocabulary of the statements *)
(* ------------------------------------------------------------------ *)

(** The post handed to [GroupPostRepo.save]. *)
Definition saved_post (now topicID userID : Z) (content : string) (parentID : Z)
    (state : option Z) : NewPost :=
  {| new_topicID := topicID; new_content := content; new_uid := userID;
     new_related := parentID; new_state := default ReplyState.Normal state;
     new_dateline := now |}.

(** The update handed to [GroupTopicRepo.update] for the topic found. *)
Definition topic_update {M : JS.MathImpl} (now : Z) (topic : GroupTopic.t) : TopicUpdate :=
  {| upd_replies := GroupTopic.replies topic + 1;
     upd_dateline :=
       if negb (GroupTopic.state topic =? ReplyState.AdminSilentTopic)
       then Some (scoredUpdateTime (JS.Z2num now) group topic)
       else None |}.

(** The scenario value for one candidate [Math.pow(1.1, 1.8)], tested against 4362. *)
Definition scenario_check (d : Z) : bool :=
  match JS.Math_min
          (JS.Math_trunc
             (JS.sub (JS.Z2num 4600)
                  (JS.mul (JS.div (S754_finite false (Z.to_pos (pow_1_1_mantissa + d)) (-52))
                            (JS.Z2num 1))
                       (JS.Z2num 200))))
          (JS.Z2num 4600)
  with
  | S754_finite false m e => (Z.pos m =? 4796069720358912) && (e =? -40)
  | _ => false
  end.

(** The [dateline] of the topic with the given id. *)
Definition dateline_of (id : Z) (s : Mem.t) : option Z :=
  GroupTopic.dateline <$> List.find (fun x => GroupTopic.id x =? id) (Mem.topics s).

Definition first_reply : Run IPost.t Mem.t :=
  run (St := Mem.forward)
    (createTopicReply (M := PowRef.ref_math) 4600 group 364 8 "hi" 0 None) Examples.db.

Definition second_reply : Run IPost.t Mem.t :=
  run (St := Mem.forward)
    (createTopicReply (M := PowRef.ref_math) 8200 group 364 8 "again" 0 None)
    (store first_reply).

(** The order C6 states: [a] may stand before [b] when its sort timestamp
    is not below that of [b], and on a tie when its id is the smaller. *)
Definition by_dateline_then_id (a b : ITopic.t) : Prop :=
  ITopic.createdAt b <= ITopic.createdAt a
  /\ (ITopic.createdAt a = ITopic.createdAt b -> ITopic.id a < ITopic.id b).

(** The posts that [subReplies] files under the key [k]. *)
Definition children (k : Z) (replies : list GroupPost.t) : list GroupPost.t :=
  List.filter (fun x => (GroupPost.related x =? k) && negb (GroupPost.related x =? 0)) replies.

(** Modelled from the spec: [filterReply] is defined in lib/topic/display,
    outside the sources at hand; the redaction "may blank content/creator
    while preserving structural placement, never removing a node" and
    "preserves id, repliedTo, state".  Of that, what the thread structure
    needs: the id of the reply, and the ids and parents of its sub-replies,
    in order. *)
Definition keeps_structure (f : IReply.t -> IReply.t) : Prop :=
  forall r,
    IReply.id (f r) = IReply.id r
    /\ map ISubReply.id (IReply.replies (f r)) = map ISubReply.id (IReply.replies r)
    /\ map ISubReply.repliedTo (IReply.replies (f r))
       = map ISubReply.repliedTo (IReply.replies r).

(** The ids of the sub-replies shown under a reply. *)
Definition shown_under (r : IReply.t) : list Z := map ISubReply.id (IReply.replies r).

(** The posts of topic 364 after its top post. *)
Definition rest_364 : list GroupPost.t :=
  Eval vm_compute in
    tl (List.filter (fun x => GroupPost.topicID x =? 364) Examples.thread).

Definition top_364 : GroupPost.t := Examples.post 1 364 7 0 "top".

(* ------------------------------------------------------------------ *)
(** * Vocabulary of the further properties *)
(* ------------------------------------------------------------------ *)

(** The requests that only read. *)
Definition is_read (r : Request) : bool :=
  match r with
  | GroupTopicRepo_update _ _ | GroupPostRepo_save _ => false
  | _ => true
  end.

(** The posts of a topic in the in-memory store, in insertion order. *)
Definition posts_of (topicID : Z) (s : Mem.t) : list GroupPost.t :=
  List.filter (fun x => GroupPost.topicID x =? topicID) (Mem.posts s).

(** Every topic counts its posts but the first. *)
Definition replies_counted (s : Mem.t) : Prop :=
  forall t, In t (Mem.topics s) ->
            GroupTopic.replies t = Z.of_nat (length (posts_of (GroupTopic.id t) s)) - 1.

(** The row the in-memory store makes of a saved post. *)
Definition saved_row (s : Mem.t) (p : NewPost) : GroupPost.t :=
  {| GroupPost.id := Mem.next_id (Mem.posts s);
     GroupPost.topicID := new_topicID p;
     GroupPost.uid := new_uid p;
     GroupPost.related := new_related p;
     GroupPost.content := new_content p;
     GroupPost.state := new_state p;
     GroupPost.dateline := new_dateline p |}.

(** What the in-memory store writes into [dateline] for an update: nothing
    ([Some None]) when the field is undefined, the integer of the number,
    or a refusal ([None]) when the number is no integer. *)
Definition written_dateline (u : TopicUpdate) : option (option Z) :=
  match upd_dateline u with
  | None => Some None
  | Some v => Some <$> Mem.num2Z v
  end.

(** The topic table after the update of the topic [topic]. *)
Definition topics_after (topic : GroupTopic.t) (d : option Z) (s : Mem.t) : list GroupTopic.t :=
  map (fun x => if GroupTopic.id x =? GroupTopic.id topic
                then Mem.set_replies_dateline (GroupTopic.replies topic + 1)
                                              (default (GroupTopic.dateline x) d) x
                else x)
      (Mem.topics s).

(** The store after a committed reply. *)
Definition committed (topic : GroupTopic.t) (d : option Z) (row : GroupPost.t) (s : Mem.t)
  : Mem.t :=
  {| Mem.topics := topics_after topic d s;
     Mem.posts := Mem.posts s ++ [row];
     Mem.users := Mem.users s |}.

(** The view [createTopicReply] returns of a saved row. *)
Definition post_view (p : GroupPost.t) (user : IUser.t) : IPost.t :=
  {| IPost.id := GroupPost.id p;
     IPost.type := group;
     IPost.user := user;
     IPost.createdAt := GroupPost.dateline p;
     IPost.state := GroupPost.state p;
     IPost.topicID := GroupPost.topicID p;
     IPost.content := GroupPost.content p |}.

(** The rows the listing of a container may show to an actor. *)
Definition listable {D : Display} (auth : IAuth) (id : Z) (s : Mem.t) : list GroupTopic.t :=
  List.filter
    (Mem.matches {| where_gid := id; where_display_in := ListTopicDisplays auth |})
    (Mem.topics s).

(* ------------------------------------------------------------------ *)
(** * The subject part of lib/subject/index.ts *)
(* ------------------------------------------------------------------ *)

(** Strings are their UTF-8 bytes. *)

(** [Number.parseInt(string)] with no radix, and [x || 0] on a number. *)
Module JSParse.
Import JS.

Definition code (c : ascii) : Z := Z.of_N (N_of_ascii c).

(** The white space and line terminators of one byte, of two and of three. *)
Definition space1 (c : ascii) : bool :=
  let n := code c in ((9 <=? n) && (n <=? 13)) || (n =? 32).

Definition space2 (c1 c2 : ascii) : bool :=
  (code c1 =? 194) && (code c2 =? 160).

Definition space3 (c1 c2 c3 : ascii) : bool :=
  let a := code c1 in
  let b := code c2 in
  let c := code c3 in
  ((a =? 225) && (b =? 154) && (c =? 128))
  || ((a =? 226) && (b =? 128)
      && (((128 <=? c) && (c <=? 138)) || (c =? 168) || (c =? 169) || (c =? 175)))
  || ((a =? 226) && (b =? 129) && (c =? 159))
  || ((a =? 227) && (b =? 128) && (c =? 128))
  || ((a =? 239) && (b =? 187) && (c =? 191)).

(** [TrimString(string, start)] *)
Fixpoint trimStart (s : string) : string :=
  match s with
  | String c1 s1 =>
      if space1 c1 then trimStart s1
      else
        match s1 with
        | String c2 s2 =>
            if space2 c1 c2 then trimStart s2
            else
              match s2 with
              | String c3 s3 => if space3 c1 c2 c3 then trimStart s3 else s
              | EmptyString => s
              end
        | EmptyString => s
        end
  | EmptyString => s
  end.

(** The value of a digit or letter, and of a digit of the radix [R]. *)
Definition digit_value (c : ascii) : option Z :=
  let n := code c in
  if (48 <=? n) && (n <=? 57) then Some (n - 48)
  else if (97 <=? n) && (n <=? 122) then Some (n - 87)
  else if (65 <=? n) && (n <=? 90) then Some (n - 55)
  else None.

Definition radix_digit (R : Z) (c : ascii) : option Z :=
  match digit_value c with
  | Some d => if d <? R then Some d else None
  | None => None
  end.

(** The integer of the longest prefix of digits; [acc] is none until a
    digit is read. *)
Fixpoint parse_digits (R : Z) (s : string) (acc : option Z) : option Z :=
  match s with
  | String c s' =>
      match radix_digit R c with
      | Some d => parse_digits R s' (Some (default 0 acc * R + d))
      | None => acc
      end
  | EmptyString => acc
  end.

(** A leading sign, taken off. *)
Definition take_sign (s : string) : bool * string :=
  match s with
  | String c s' =>
      if code c =? 45 then (true, s')
      else if code c =? 43 then (false, s')
      else (false, s)
  | EmptyString => (false, s)
  end.

(** A leading [0x] or [0X] makes the radix 16; it is 10 otherwise. *)
Definition take_prefix (s : string) : Z * string :=
  match s with
  | String c1 (String c2 s') =>
      if (code c1 =? 48) && ((code c2 =? 120) || (code c2 =? 88)) then (16, s')
      else (10, s)
  | _ => (10, s)
  end.

(** [parseInt]: NaN without a digit, a signed zero for zero, and else the
    number of the integer read (every digit counted, as V8 does). *)
Definition parseInt (string : string) : number :=
  let '(sign, s) := take_sign (trimStart string) in
  let '(R, s) := take_prefix s in
  match parse_digits R s None with
  | None => NaN
  | Some 0 => S754_zero sign
  | Some mathInt => Z2num (if sign then - mathInt else mathInt)
  end.

(** [x || 0]: zero for NaN and the zeros, [x] otherwise. *)
Definition or_zero (x : number) : number :=
  match x with
  | S754_nan | S754_zero _ => Z2num 0
  | _ => x
  end.

End JSParse.

(** [Wiki], with the fields the source reads: an item has a key and, unless
    it is an array item, a value. *)
Module Wiki.
Record item : Type := mk_item { key : string; value : option string }.
Record t : Type := mk { data : list item }.
End Wiki.

(** [extractNameCN(w)] *)
Definition extractNameCN (w : Wiki.t) : string :=
  match List.find (fun v => String.eqb (Wiki.key v) "中文名") (Wiki.data w) with
  | Some v => default EmptyString (Wiki.value v)
  | None => EmptyString
  end.

(** [extractEpisode(w)] *)
Definition extractEpisode (w : Wiki.t) : JS.number :=
  let v :=
    match List.find (fun v => existsb (String.eqb (Wiki.key v)) ["话数"; "集数"]%string)
                    (Wiki.data w) with
    | Some v => Wiki.value v
    | None => None
    end in
  match v with
  | None | Some EmptyString => JS.Z2num 0
  | Some v => JSParse.or_zero (JSParse.parseInt v)
  end.

(** The platform table is imported by the source from ./platform: for a
    subject type, the platforms by key, here the entries of the object in
    the order [Object.values] lists them. *)
Class Platforms : Type := {
  Platform : Type;
  Platform_id : Platform -> Z;
  platform : Z -> option (list (Z * Platform))
}.

Section PlatformTable.
Context {P : Platforms}.

(** [sort((a, b) => a.id - b.id)]: the stable sort by [id]. *)
Fixpoint insert_by_id (x : Platform) (l : list Platform) : list Platform :=
  match l with
  | [] => [x]
  | y :: l' =>
      if Platform_id x - Platform_id y <=? 0 then x :: l else y :: insert_by_id x l'
  end.

Definition sort_by_id (l : list Platform) : list Platform :=
  fold_right insert_by_id [] l.

(** [platforms(typeID)] *)
Definition platforms (typeID : Z) : list Platform :=
  match platform typeID with
  | Some s => sort_by_id (map snd s)
  | None => []
  end.

(** [platformString(typeID, platformID)] *)
Definition platformString (typeID platformID : Z) : option Platform :=
  match platform typeID with
  | Some s => snd <$> List.find (fun e => fst e =? platformID) s
  | None => None
  end.

End PlatformTable.


(** The ids [edit] accepts. *)
Definition SandBox : list Z := [184017; 354677; 354667; 309445; 363612].

(** Rows of the subject tables, with the columns [edit] reads or writes. *)
Module Subject.
Record t : Type := mk {
  id : Z;
  typeID : Z;
  platform : Z;
  name : string;
  nameCN : string;
  fieldEps : Z;
  fieldSummary : string;
  fieldInfobox : string;
  updatedAt : Z
}.
End Subject.

Module SubjectRev.
Record t : Type := mk {
  subjectID : Z;
  summary : string;
  infobox : string;
  creatorID : Z;
  typeID : Z;
  name : string;
  platform : Z;
  nameCN : string;
  createdAt : Z;
  commitMessage : string
}.
End SubjectRev.

Module SubjectFields.
Record t : Type := mk { subject_id : Z; fieldDate : string }.
End SubjectFields.

(** The object [SubjectRepo.update] receives. *)
Record SubjectUpdate : Type := {
  su_platform : Z;
  su_name : string;
  su_fieldEps : JS.number;
  su_nameCN : string;
  su_fieldSummary : string;
  su_fieldInfobox : string;
  su_updatedAt : Z
}.

(** What [wiki(infobox)] does: it returns the parsed infobox, throws a
    [WikiSyntaxError] (its message, the line and its number when known) or
    throws something else. *)
Inductive Parsed : Type :=
| parsed (w : Wiki.t)
| WikiSyntaxError (message : string) (line : option string) (lino : option Z)
| thrown (error : string).

(** The wiki library, imported by the source from lib/utils/wiki and
    lib/subject/date. *)
Class WikiLib : Type := {
  wiki : string -> Parsed;
  extractDate : Wiki.t -> string
}.

Inductive EditError : Type :=
| InvalidWikiSyntaxError (message : string)
| Rethrown (error : string)
| SubjectNotFoundError
| SubjectQueryFailedError.

Inductive SubjectRequest : Type :=
| SubjectRepo_findOneBy (id : Z)
| SubjectRevRepo_insert (rev : SubjectRev.t)
| SubjectRepo_update (id : Z) (u : SubjectUpdate)
| SubjectFieldRepo_update (subject_id : Z) (fieldDate : string).

Definition SubjectResponse (r : SubjectRequest) : Type :=
  match r with
  | SubjectRepo_findOneBy _ => option Subject.t
  | _ => unit
  end.

(** The asynchronous functions over the subject repositories. *)
Inductive EditProg : Type -> Type :=
| ERet {A : Type} (a : A) : EditProg A
| EThrow {A : Type} (e : EditError) : EditProg A
| ECall {A : Type} (r : SubjectRequest) (k : SubjectResponse r -> EditProg A) : EditProg A
| ETransaction {A B : Type} (body : EditProg B) (k : B -> EditProg A) : EditProg A.

Fixpoint ebind {A B : Type} (p : EditProg A) : (A -> EditProg B) -> EditProg B :=
  match p in EditProg T return (T -> EditProg B) -> EditProg B with
  | ERet a => fun f => f a
  | EThrow e => fun _ => EThrow e
  | ECall r k => fun f => ECall r (fun x => ebind (k x) f)
  | ETransaction body k => fun f => ETransaction body (fun b => ebind (k b) f)
  end.

Definition eawait (r : SubjectRequest) : EditProg (SubjectResponse r) := ECall r ERet.

Definition etransaction {B : Type} (body : EditProg B) : EditProg B := ETransaction body ERet.

Declare Scope edit_scope.
Delimit Scope edit_scope with edit.
Notation "'let*' x ':=' p 'in' q" := (ebind p (fun x => q))
  (at level 10, x name, p at level 100, q at level 200) : edit_scope.

Inductive EditResult (A : Type) : Type :=
| Done (a : A)
| Failed (e : EditError).
Arguments Done {A} a.
Arguments Failed {A} e.

Class SubjectStore (S : Type) : Type :=
  { subject_handle : forall r : SubjectRequest, S -> EditResult (SubjectResponse r * S) }.

Record EditRun (A S : Type) : Type :=
  { edit_outcome : EditResult A; edit_store : S; edit_accesses : list SubjectRequest }.
Arguments edit_outcome {A S} _.
Arguments edit_store {A S} _.
Arguments edit_accesses {A S} _.

(** As [run]: a transaction that throws leaves the store as it was. *)
Fixpoint erun {S : Type} {St : SubjectStore S} {A : Type} (p : EditProg A) (s : S)
  : EditRun A S :=
  match p in EditProg T return EditRun T S with
  | ERet a => {| edit_outcome := Done a; edit_store := s; edit_accesses := [] |}
  | EThrow e => {| edit_outcome := Failed e; edit_store := s; edit_accesses := [] |}
  | ECall r k =>
      match subject_handle r s with
      | Done (x, s') =>
          let o := erun (k x) s' in
          {| edit_outcome := edit_outcome o; edit_store := edit_store o;
             edit_accesses := r :: edit_accesses o |}
      | Failed e => {| edit_outcome := Failed e; edit_store := s; edit_accesses := [r] |}
      end
  | ETransaction body k =>
      let b := erun body s in
      match edit_outcome b with
      | Done x =>
          let o := erun (k x) (edit_store b) in
          {| edit_outcome := edit_outcome o; edit_store := edit_store o;
             edit_accesses := edit_accesses b ++ edit_accesses o |}
      | Failed e =>
          {| edit_outcome := Failed e; edit_store := s; edit_accesses := edit_accesses b |}
      end
  end.

Section Edit.
Context {W : WikiLib}.
Open Scope edit_scope.

(** The text [l] that [edit] adds to the message of a syntax error. *)
Definition error_location (line : option string) (lino : option Z) : string :=
  match line with
  | None | Some EmptyString => EmptyString
  | Some line =>
      let l := ("line: " ++ line)%string in
      let l :=
        match lino with
        | None | Some 0 => l
        | Some lino => (l ++ ":" ++ pretty lino)%string
        end in
      (" (" ++ l ++ ")")%string
  end.

(** [edit({subjectID, name, infobox, platform, summary, commitMessage, date,
    userID, now})]; [now] is the reading [now.unix()], and the line written
    to the log is left out. *)
Definition edit (subjectID : Z) (name infobox : string) (platform : Z)
    (summary commitMessage : string) (date : option string) (userID now : Z)
  : EditProg unit :=
  if negb (existsb (Z.eqb subjectID) SandBox) then ERet tt
  else
    match wiki infobox with
    | WikiSyntaxError message line lino =>
        EThrow (InvalidWikiSyntaxError (message ++ error_location line lino)%string)
    | thrown error => EThrow (Rethrown error)
    | parsed w =>
        let nameCN := extractNameCN w in
        let episodes := extractEpisode w in
        etransaction
          (let* found := eawait (SubjectRepo_findOneBy subjectID) in
           match found with
           | None => EThrow SubjectNotFoundError
           | Some s =>
               let* _ :=
                 eawait (SubjectRevRepo_insert
                           {| SubjectRev.subjectID := subjectID;
                              SubjectRev.summary := summary;
                              SubjectRev.infobox := infobox;
                              SubjectRev.creatorID := userID;
                              SubjectRev.typeID := Subject.typeID s;
                              SubjectRev.name := name;
                              SubjectRev.platform := platform;
                              SubjectRev.nameCN := nameCN;
                              SubjectRev.createdAt := now;
                              SubjectRev.commitMessage := commitMessage |}) in
               let* _ :=
                 eawait (SubjectRepo_update subjectID
                           {| su_platform := platform;
                              su_name := name;
                              su_fieldEps := episodes;
                              su_nameCN := nameCN;
                              su_fieldSummary := summary;
                              su_fieldInfobox := infobox;
                              su_updatedAt := now |}) in
               eawait (SubjectFieldRepo_update subjectID (default (extractDate w) date))
           end)
    end.

End Edit.

(** The subject tables in memory. *)
Module SubjectMem.

Record t : Type := mk {
  subjects : list Subject.t;
  revs : list SubjectRev.t;
  fields : list SubjectFields.t
}.

Definition apply_update (u : SubjectUpdate) (eps : Z) (x : Subject.t) : Subject.t :=
  {| Subject.id := Subject.id x;
     Subject.typeID := Subject.typeID x;
     Subject.platform := su_platform u;
     Subject.name := su_name u;
     Subject.nameCN := su_nameCN u;
     Subject.fieldEps := eps;
     Subject.fieldSummary := su_fieldSummary u;
     Subject.fieldInfobox := su_fieldInfobox u;
     Subject.updatedAt := su_updatedAt u |}.

Definition handle (r : SubjectRequest) (s : t) : EditResult (SubjectResponse r * t) :=
  match r return EditResult (SubjectResponse r * t) with
  | SubjectRepo_findOneBy id =>
      Done (List.find (fun x => Subject.id x =? id) (subjects s), s)
  | SubjectRevRepo_insert rev =>
      Done (tt, mk (subjects s) (revs s ++ [rev]) (fields s))
  | SubjectRepo_update id u =>
      match Mem.num2Z (su_fieldEps u) with
      | Some eps =>
          Done (tt, mk (map (fun x => if Subject.id x =? id then apply_update u eps x else x)
                            (subjects s))
                       (revs s) (fields s))
      | None => Failed SubjectQueryFailedError
      end
  | SubjectFieldRepo_update id date =>
      Done (tt, mk (subjects s) (revs s)
                   (map (fun x => if SubjectFields.subject_id x =? id
                                  then SubjectFields.mk id date else x)
                        (fields s)))
  end.

Definition store : SubjectStore t := {| subject_handle := handle |}.

End SubjectMem.

(** A decimal digit, and a string of them. *)
Definition is_decimal (c : ascii) : bool := (48 <=? JSParse.code c) && (JSParse.code c <=? 57).

Fixpoint all_decimal (s : string) : bool :=
  match s with
  | String c s' => is_decimal c && all_decimal s'
  | EmptyString => true
  end.

(** What may follow a numeral and end it: nothing, or a byte that is no
    decimal digit and neither [x] nor [X]. *)
Definition ends_numeral (rest : string) : bool :=
  match rest with
  | String c _ => negb (is_decimal c) && negb ((JSParse.code c =? 120) || (JSParse.code c =? 88))
  | EmptyString => true
  end.

(** The order of [platforms]: by [id], ascending. *)
Definition id_le {P : Platforms} (a b : Platform) : Prop := Platform_id a <= Platform_id b.

(** The subject a request names. *)
Definition request_subject (r : SubjectRequest) : Z :=
  match r with
  | SubjectRepo_findOneBy id => id
  | SubjectRevRepo_insert rev => SubjectRev.subjectID rev
  | SubjectRepo_update id _ => id
  | SubjectFieldRepo_update id _ => id
  end.

(** The revision [edit] inserts and the update it sends for the subject row
    [s] and the parsed infobox [w]. *)
Definition edit_rev (subjectID : Z) (name infobox : string) (platform : Z)
    (summary commitMessage : string) (userID now : Z) (w : Wiki.t) (s : Subject.t)
  : SubjectRev.t :=
  {| SubjectRev.subjectID := subjectID;
     SubjectRev.summary := summary;
     SubjectRev.infobox := infobox;
     SubjectRev.creatorID := userID;
     SubjectRev.typeID := Subject.typeID s;
     SubjectRev.name := name;
     SubjectRev.platform := platform;
     SubjectRev.nameCN := extractNameCN w;
     SubjectRev.createdAt := now;
     SubjectRev.commitMessage := commitMessage |}.

Definition edit_update (name infobox : string) (platform : Z) (summary : string)
    (now : Z) (w : Wiki.t) : SubjectUpdate :=
  {| su_platform := platform;
     su_name := name;
     su_fieldEps := extractEpisode w;
     su_nameCN := extractNameCN w;
     su_fieldSummary := summary;
     su_fieldInfobox := infobox;
     su_updatedAt := now |}.

(** The subject tables after an edit that went through. *)
Definition edited (subjectID : Z) (u : SubjectUpdate) (eps : Z) (rev : SubjectRev.t)
    (date : string) (s : SubjectMem.t) : SubjectMem.t :=
  SubjectMem.mk
    (map (fun x => if Subject.id x =? subjectID then SubjectMem.apply_update u eps x else x)
         (SubjectMem.subjects s))
    (SubjectMem.revs s ++ [rev])
    (map (fun x => if SubjectFields.subject_id x =? subjectID
                   then SubjectFields.mk subjectID date else x)
         (SubjectMem.fields s)).

(** The rows of other subjects. *)
Definition other_subjects (subjectID : Z) (s : SubjectMem.t) : list Subject.t :=
  List.filter (fun x => negb (Subject.id x =? subjectID)) (SubjectMem.subjects s).

(** One request of a run answered, either way. *)
Ltac step_handle :=
  match goal with
  | |- context [subject_handle ?r ?s0] =>
      destruct (subject_handle r s0) as [[? ?] | ?]; [| cbn; repeat constructor]
  end.


(* ------------------------------------------------------------------ *)
(** * Further example data *)
(* ------------------------------------------------------------------ *)

Module Forum.

(** A store whose topics count their replies: topic 30 with the top post
    and two replies, topic 31 with its top post only. *)
Definition talk : GroupTopic.t := Examples.topic 30 3 2 3000 ReplyState.Normal TopicDisplay.Normal.
Definition quiet : GroupTopic.t := Examples.topic 31 3 0 3100 ReplyState.Normal TopicDisplay.Normal.

Definition posts : list GroupPost.t :=
  [ Examples.post 1 30 7 0 "top"; Examples.post 2 30 8 0 "first";
    Examples.post 3 30 7 2 "re first"; Examples.post 4 31 8 0 "other top" ].

Definition db : Mem.t :=
  {| Mem.topics := [talk; quiet];
     Mem.posts := posts;
     Mem.users := [Examples.user 7 "alice"; Examples.user 8 "bob"] |}.

Definition top_30 : GroupPost.t := Examples.post 1 30 7 0 "top".

Definition rest_30 : list GroupPost.t :=
  [Examples.post 2 30 8 0 "first"; Examples.post 3 30 7 2 "re first"].

End Forum.

Module Catalogue.

(** An infobox: the Chinese name, an array item, then the episodes under
    both keys. *)
Definition name_item : Wiki.item := Wiki.mk_item "中文名" (Some "魔法少女小圆"%string).
Definition alias_item : Wiki.item := Wiki.mk_item "别名" None.
Definition later_item : Wiki.item := Wiki.mk_item "集数" (Some "99"%string).

Definition infobox : Wiki.t :=
  Wiki.mk [alias_item; name_item; Wiki.mk_item "话数" (Some "12话"%string); later_item].

Definition infobox_text : string := "{{Infobox animanga/TVAnime |中文名= 魔法少女小圆 |话数= 12话 }}".

(** A wiki library that knows one text and rejects the others at their
    third line. *)
Definition library : WikiLib :=
  {| wiki := fun text =>
       if String.eqb text infobox_text then parsed infobox
       else WikiSyntaxError "missing '}}' at the end" (Some text) (Some 3);
     extractDate := fun _ => "2011-01-07"%string |}.

(** Platforms: a row has an id and a name; the anime table has a row out
    of place. *)
Record row : Type := mk_row { row_id : Z; row_name : string }.

Definition anime : list (Z * row) :=
  [(0, mk_row 0 "other"); (1, mk_row 1 "TV"); (2, mk_row 5 "web"); (3, mk_row 3 "movie")].

Definition table : Platforms :=
  {| Platform := row;
     Platform_id := row_id;
     platform := fun typeID => if typeID =? 2 then Some anime else None |}.

(** The subject tables: subject 184017 of the sandbox and subject 2. *)
Definition subject (id typeID : Z) (name : string) : Subject.t :=
  {| Subject.id := id; Subject.typeID := typeID; Subject.platform := 1;
     Subject.name := name; Subject.nameCN := ""; Subject.fieldEps := 0;
     Subject.fieldSummary := ""; Subject.fieldInfobox := ""; Subject.updatedAt := 0 |}.

Definition madoka : Subject.t := subject 184017 2 "Puella Magi".

Definition db : SubjectMem.t :=
  {| SubjectMem.subjects := [subject 2 1 "book"; madoka];
     SubjectMem.revs := [];
     SubjectMem.fields := [SubjectFields.mk 184017 "0000-00-00"] |}.

End Catalogue.

(* ------------------------------------------------------------------ *)
(** * Numbers: comparison and [Math.min] *)
(* ------------------------------------------------------------------ *)

Section NumberFacts.
Import JS.

Lemma SFcompare_Lt_swap (a b : number) :
  SFcompare a b = Some Lt -> SFcompare b a = Some Gt.
Proof.
  destruct a as [sa | sa | | sa ma ea], b as [sb | sb | | sb mb eb];
    simpl; try discriminate;
    try (destruct sa; simpl; congruence);
    try (destruct sb; simpl; congruence);
    try (destruct sa, sb; simpl; congruence).
  rewrite (Z.compare_antisym ea eb).
  change (Pos.compare_cont Eq mb ma) with (Pos.compare mb ma).
  change (Pos.compare_cont Eq ma mb) with (Pos.compare ma mb).
  rewrite (Pos.compare_antisym ma mb).
  destruct sa, sb; try congruence;
    destruct (ea ?= eb); simpl; try congruence;
    destruct (ma ?= mb)%positive; simpl; congruence.
Qed.

Lemma SFcompare_refl (a : number) :
  isNaN a = false -> SFcompare a a = Some Eq.
Proof.
  destruct a as [s | s | | s m e]; simpl; try discriminate; intros _;
    try (destruct s; reflexivity).
  rewrite Z.compare_refl.
  change (Pos.compare_cont Eq m m) with (Pos.compare m m).
  rewrite Pos.compare_refl. destruct s; reflexivity.
Qed.

Lemma SFcompare_not_NaN (a b : number) (c : comparison) :
  SFcompare a b = Some c -> isNaN a = false /\ isNaN b = false.
Proof. destruct a, b; simpl; intros E; try discriminate; auto. Qed.

Lemma SFltb_irrefl (a : number) : SFltb a a = false.
Proof.
  unfold SFltb. destruct (SFcompare a a) as [[]|] eqn:E; try reflexivity.
  pose proof (SFcompare_Lt_swap a a E). congruence.
Qed.

(** [Math.min(a, b)] is never above [b]. *)
Lemma Math_min_not_above (a b : number) : gt (Math_min a b) b = false.
Proof.
  unfold gt, Math_min.
  destruct (SFcompare a b) as [[]|] eqn:E.
  - destruct a as [[] | | |]; try apply SFltb_irrefl.
    destruct b as [sb | sb | | sb mb eb]; simpl in E;
      try discriminate; try reflexivity; destruct sb; discriminate.
  - unfold SFltb. rewrite (SFcompare_Lt_swap a b E). reflexivity.
  - apply SFltb_irrefl.
  - unfold SFltb. destruct b; reflexivity.
Qed.

(** Unless it is NaN, [Math.min(a, b)] is at most [b]. *)
Lemma Math_min_le (a b : number) :
  isNaN (Math_min a b) = false -> le (Math_min a b) b = true.
Proof.
  unfold le, SFleb, Math_min.
  destruct (SFcompare a b) as [[]|] eqn:E; try discriminate; intros _.
  - destruct (SFcompare_not_NaN a b _ E) as [_ Hb].
    destruct a as [[] | | |]; try (rewrite (SFcompare_refl b Hb); reflexivity).
    rewrite E. reflexivity.
  - rewrite E. reflexivity.
  - destruct (SFcompare_not_NaN a b _ E) as [_ Hb].
    rewrite (SFcompare_refl b Hb). reflexivity.
Qed.

Lemma all_from_sound (f : Z -> bool) (n : nat) :
  forall lo i, all_from f lo n = true -> lo <= i < lo + Z.of_nat n -> f i = true.
Proof.
  induction n as [| n IH]; intros lo i Hall Hi.
  - simpl in Hi. lia.
  - simpl in Hall. apply andb_true_iff in Hall as [Hlo Hrest].
    destruct (Z.eq_dec i lo) as [-> | Hne]; [exact Hlo |].
    apply (IH (lo + 1)); [exact Hrest | lia].
Qed.

End NumberFacts.

(* ------------------------------------------------------------------ *)
(** * The ranking transform *)
(* ------------------------------------------------------------------ *)

Section Ranking.
Import JS.
Context {M : MathImpl}.

Lemma scoredUpdateTime_unfold (timestamp : number) (type : Type_) (topic : GroupTopic.t) :
  scoredUpdateTime timestamp type topic
  = if Type_eqb type group
       && existsb (Z.eqb (GroupTopic.id topic)) ranking_allow_list
       && (0 <? GroupTopic.replies topic)
    then gravity_decay timestamp topic
    else timestamp.
Proof. reflexivity. Qed.

(** X1: the ranking transform never returns a number above the event time,
    whatever the topic, the type and the implementation of [Math.pow]. *)
Lemma scoredUpdateTime_not_above (timestamp : number) (type : Type_) (topic : GroupTopic.t) :
  gt (scoredUpdateTime timestamp type topic) timestamp = false.
Proof.
  rewrite scoredUpdateTime_unfold.
  destruct (_ && _ && _).
  - apply Math_min_not_above.
  - apply SFltb_irrefl.
Qed.

(** Whenever its result is a number, the result is at most the event time. *)
Lemma scoredUpdateTime_le (timestamp : number) (type : Type_) (topic : GroupTopic.t) :
  isNaN (scoredUpdateTime timestamp type topic) = false ->
  le (scoredUpdateTime timestamp type topic) timestamp = true.
Proof.
  rewrite scoredUpdateTime_unfold.
  destruct (_ && _ && _).
  - apply Math_min_le.
  - intros Hn. unfold le, SFleb. rewrite (SFcompare_refl _ Hn). reflexivity.
Qed.

(** On an allow-listed topic with replies, once the age in hours plus 0.1 is
    below zero the result is NaN, whatever the implementation of [Math.pow]. *)
Lemma scoredUpdateTime_NaN (timestamp : number) (topic : GroupTopic.t)
    (m : positive) (e : Z) :
  existsb (Z.eqb (GroupTopic.id topic)) ranking_allow_list = true ->
  0 < GroupTopic.replies topic ->
  add (div (sub timestamp (Z2num (GroupTopic.dateline topic))) (Z2num 3600)) lit_0_1
  = S754_finite true m e ->
  scoredUpdateTime timestamp group topic = NaN.
Proof.
  intros Hlisted Hreplies Hbase.
  rewrite scoredUpdateTime_unfold, Hlisted.
  apply Z.ltb_lt in Hreplies. rewrite Hreplies. cbn [Type_eqb andb].
  unfold gravity_decay. rewrite Hbase.
  change (Math_pow (S754_finite true m e) lit_1_8) with NaN.
  clear Hbase.
  destruct (Z2num (GroupTopic.replies topic)), timestamp; reflexivity.
Qed.

End Ranking.

(* ------------------------------------------------------------------ *)
(** * Reply creation on any store *)
(* ------------------------------------------------------------------ *)

Section ReplyCreation.
Import JS.
Context {M : MathImpl} {S : Type} {St : Store S}.



(** Once the topic is found and the post saved, the third request is the
    update of the topic found, with [topic_update]. *)
Lemma createTopicReply_requests now topicID userID content parentID state s topic s1 post s2 :
  handle (GroupTopicRepo_findOne topicID) s = Ok (Some topic, s1) ->
  handle (GroupPostRepo_save (saved_post now topicID userID content parentID state)) s1
  = Ok (post, s2) ->
  exists tail,
    accesses (run (createTopicReply now group topicID userID content parentID state) s)
    = GroupTopicRepo_findOne topicID
        :: GroupPostRepo_save (saved_post now topicID userID content parentID state)
        :: GroupTopicRepo_update (GroupTopic.id topic) (topic_update now topic)
        :: tail.
Proof.
  intros Hfind Hsave.
  unfold createTopicReply, transaction, await. cbn [Type_eqb negb bind run].
  rewrite Hfind. cbn [bind run].
  fold (saved_post now topicID userID content parentID state).
  rewrite Hsave. cbn [bind run].
  fold (topic_update now topic).
  destruct (handle (GroupTopicRepo_update (GroupTopic.id topic) (topic_update now topic)) s2)
    as [[[] s3] | e]; cbn.
  - destruct (handle (fetchUserX (GroupPost.uid post)) s3) as [[u s4] | e]; cbn;
      eexists; reflexivity.
  - eexists; reflexivity.
Qed.

End ReplyCreation.

(* ------------------------------------------------------------------ *)
(** * Claims on the ranking transform *)
(* ------------------------------------------------------------------ *)

Section RankingClaims.
Import JS.

(** C1, as stated, fails: topic 364 of group 1 has a group outside the
    allow-list, and a reply at 4600 still gets the decayed value, not the
    event time. *)
Lemma C1_counterexample :
  ~ (forall (M : MathImpl) (timestamp : number) (topic : GroupTopic.t),
        scoredUpdateTime timestamp group topic
        = if existsb (Z.eqb (GroupTopic.gid topic)) ranking_allow_list
             && (0 <? GroupTopic.replies topic)
          then gravity_decay timestamp topic
          else timestamp).
Proof.
  intros Hclaim.
  specialize (Hclaim PowRef.ref_math (Z2num 4600) Examples.topic_364_of_1).
  vm_compute in Hclaim. discriminate Hclaim.
Qed.

(** C1 (amended): for a reply created on a topic that is not sunk, the new
    sort timestamp is the gravity-decay value exactly when the topic's own
    id is in the allow-list and its reply count before the reply is above
    zero, and the event time otherwise; it is what the update of the topic
    carries. *)
Theorem C1_decay_condition {M : MathImpl} {S : Type} {St : Store S}
    (now topicID userID : Z) (content : string) (parentID : Z) (state : option Z)
    (s s1 s2 : S) (topic : GroupTopic.t) (post : GroupPost.t) :
  handle (GroupTopicRepo_findOne topicID) s = Ok (Some topic, s1) ->
  handle (GroupPostRepo_save (saved_post now topicID userID content parentID state)) s1
  = Ok (post, s2) ->
  GroupTopic.state topic <> ReplyState.AdminSilentTopic ->
  let newSortTimestamp :=
    if existsb (Z.eqb (GroupTopic.id topic)) ranking_allow_list
       && (0 <? GroupTopic.replies topic)
    then gravity_decay (Z2num now) topic
    else Z2num now in
  scoredUpdateTime (Z2num now) group topic = newSortTimestamp
  /\ In (GroupTopicRepo_update (GroupTopic.id topic)
           {| upd_replies := GroupTopic.replies topic + 1;
              upd_dateline := Some newSortTimestamp |})
        (accesses (run (createTopicReply now group topicID userID content parentID state) s)).
Proof.
  intros Hfind Hsave Hstate newSortTimestamp.
  split; [apply scoredUpdateTime_unfold |].
  destruct (createTopicReply_requests _ _ _ _ _ _ _ _ _ _ _ Hfind Hsave) as [tail ->].
  right; right; left.
  unfold topic_update.
  apply Z.eqb_neq in Hstate. rewrite Hstate. reflexivity.
Qed.

Lemma C1_decay_condition_witness :
  let newSortTimestamp := gravity_decay (M := PowRef.ref_math) (Z2num 4600) Examples.topic_364_of_1 in
  scoredUpdateTime (M := PowRef.ref_math) (Z2num 4600) group Examples.topic_364_of_1
  = newSortTimestamp
  /\ In (GroupTopicRepo_update 364 {| upd_replies := 2; upd_dateline := Some newSortTimestamp |})
        (accesses (run (St := Mem.forward)
                     (createTopicReply (M := PowRef.ref_math) 4600 group 364 8 "hi" 0 None)
                     Examples.db)).
Proof.
  apply (C1_decay_condition (M := PowRef.ref_math) (St := Mem.forward)
           4600 364 8 "hi" 0 None Examples.db Examples.db
           (Mem.mk (Mem.topics Examples.db)
                   (Mem.posts Examples.db ++ [GroupPost.mk 13 364 8 0 "hi" 0 4600])
                   (Mem.users Examples.db))
           Examples.topic_364_of_1 (GroupPost.mk 13 364 8 0 "hi" 0 4600)).
  - reflexivity.
  - reflexivity.
  - vm_compute. discriminate.
Defined.

(** C3, as stated, fails: on the scenario topic the reply at 4600 does not
    give 4379. *)
Lemma C3_counterexample :
  scoredUpdateTime (M := PowRef.ref_math) (Z2num 4600) group Examples.scenario
  <> Z2num 4379.
Proof. vm_compute. discriminate. Qed.

(** The scenario value as a function of the last bits of [Math.pow(1.1, 1.8)]. *)
Lemma scenario_value (M : MathImpl) :
  scoredUpdateTime (Z2num 4600) group Examples.scenario
  = Math_min
      (Math_trunc (sub (Z2num 4600)
                       (mul (div (pow_approx lit_1_1 lit_1_8) (Z2num 1)) (Z2num 200))))
      (Z2num 4600).
Proof. reflexivity. Qed.


(** The reference mantissa is within two units in the last place of the real
    power: (m / 2^52)^5 against (11/10)^9. *)
Lemma pow_1_1_mantissa_brackets :
  (pow_1_1_mantissa - 2) ^ 5 * 10 ^ 9 < 11 ^ 9 * 2 ^ 260
  /\ 11 ^ 9 * 2 ^ 260 < (pow_1_1_mantissa + 2) ^ 5 * 10 ^ 9.
Proof. vm_compute. split; reflexivity. Qed.

Lemma pow_ref_at_1_1 :
  PowRef.pow_ref lit_1_1 lit_1_8 = S754_finite false (Z.to_pos pow_1_1_mantissa) (-52).
Proof. vm_compute. reflexivity. Qed.

Lemma scenario_check_all : all_from scenario_check (-1024) 2049 = true.
Proof. vm_compute. reflexivity. Qed.

(** C3 (amended): for the topic with id 364, dateline 1000 and one reply, a
    reply at 4600 gives 4362, whenever [Math.pow(1.1, 1.8)] is within 1024
    units in the last place of 1.18715...: the decay is about 237.4 and
    4600 - 237.4 truncates to 4362. *)
Theorem C3_one_hour_scenario (M : MathImpl) :
  accurate_at_1_1 M ->
  scoredUpdateTime (Z2num 4600) group Examples.scenario = Z2num 4362.
Proof.
  intros (d & Hd & Hpow).
  rewrite scenario_value, Hpow.
  pose proof (all_from_sound scenario_check 2049 (-1024) d scenario_check_all) as Hc.
  unfold scenario_check in Hc.
  specialize (Hc ltac:(lia)).
  destruct (Math_min _ _) as [| | | [] m e]; try discriminate Hc.
  apply andb_true_iff in Hc as [Hm He].
  apply Z.eqb_eq in Hm, He. injection Hm as ->. subst e. reflexivity.
Qed.

Lemma C3_one_hour_scenario_witness :
  scoredUpdateTime (M := PowRef.ref_math) (Z2num 4600) group Examples.scenario
  = Z2num 4362.
Proof.
  apply (C3_one_hour_scenario PowRef.ref_math).
  exists 0. split; [lia | vm_compute; reflexivity].
Defined.

(** C9 fails on the code: with the topic dated 2000 and the reply at 1000
    the age plus 0.1 is negative, [Math.pow] of it to 1.8 is NaN under
    every implementation, and so is the result, which is not at most 1000. *)
Theorem C9_NaN_before_dateline (M : MathImpl) :
  scoredUpdateTime (Z2num 1000) group Examples.ahead = NaN
  /\ le (scoredUpdateTime (Z2num 1000) group Examples.ahead) (Z2num 1000) = false.
Proof. split; vm_compute; reflexivity. Qed.

End RankingClaims.

(* ------------------------------------------------------------------ *)
(** * The in-memory stores keep the requested order *)
(* ------------------------------------------------------------------ *)

Section MemOrder.

Lemma StronglySorted_app_inv {A : Type} (R : A -> A -> Prop) (l1 l2 : list A) :
  StronglySorted R (l1 ++ l2) -> StronglySorted R l1 /\ StronglySorted R l2.
Proof.
  induction l1 as [| a l1 IH]; simpl; intros Hs.
  - split; [constructor | exact Hs].
  - inversion Hs as [| a' l' Htail Hall]; subst.
    destruct (IH Htail) as [H1 H2]. split; [| exact H2].
    constructor; [exact H1 |].
    rewrite List.Forall_app in Hall. tauto.
Qed.

Lemma StronglySorted_page {A : Type} (R : A -> A -> Prop) (skip take : nat) (l : list A) :
  StronglySorted R l -> StronglySorted R (firstn take (skipn skip l)).
Proof.
  intros Hs.
  rewrite <- (firstn_skipn skip l) in Hs.
  apply StronglySorted_app_inv in Hs as [_ Hs].
  rewrite <- (firstn_skipn take (skipn skip l)) in Hs.
  apply StronglySorted_app_inv in Hs as [Hs _]. exact Hs.
Qed.

Lemma StronglySorted_map {A B : Type} (R : A -> A -> Prop) (Q : B -> B -> Prop)
    (f : A -> B) (l : list A) :
  (forall a b, R a b -> Q (f a) (f b)) ->
  StronglySorted R l -> StronglySorted Q (map f l).
Proof.
  intros Hf Hs. induction Hs as [| a l Hs IH Hall]; simpl; constructor.
  - exact IH.
  - rewrite List.Forall_forall in *. intros b Hb.
    apply List.in_map_iff in Hb as (x & <- & Hx). auto.
Qed.

Lemma in_order_spec (d : Direction) (a b : GroupTopic.t) :
  Mem.in_order d (GroupTopic.dateline a) (GroupTopic.dateline b) = true
  <-> dateline_ordered d a b.
Proof. destruct d; simpl; apply Z.leb_le. Qed.

Lemma dateline_ordered_trans (d : Direction) (a b c : GroupTopic.t) :
  dateline_ordered d a b -> dateline_ordered d b c -> dateline_ordered d a c.
Proof. destruct d; simpl; lia. Qed.

Lemma dateline_ordered_total (d : Direction) (a b : GroupTopic.t) :
  Mem.in_order d (GroupTopic.dateline a) (GroupTopic.dateline b) = false ->
  dateline_ordered d b a.
Proof. destruct d; simpl; intros H; apply Z.leb_gt in H; lia. Qed.

Lemma insert_sorted_In (d : Direction) (x y : GroupTopic.t) (l : list GroupTopic.t) :
  In y (Mem.insert_sorted d x l) -> y = x \/ In y l.
Proof.
  induction l as [| a l IH]; simpl.
  - intros [-> | []]. now left.
  - destruct (Mem.in_order d _ _); simpl.
    + intros [-> | [-> | H]]; auto.
    + intros [-> | H]; auto. destruct (IH H); auto.
Qed.

Lemma insert_sorted_sorted (d : Direction) (x : GroupTopic.t) (l : list GroupTopic.t) :
  StronglySorted (dateline_ordered d) l ->
  StronglySorted (dateline_ordered d) (Mem.insert_sorted d x l).
Proof.
  induction 1 as [| a l Hs IH Hall]; simpl.
  - repeat constructor.
  - destruct (Mem.in_order d (GroupTopic.dateline x) (GroupTopic.dateline a)) eqn:E.
    + apply in_order_spec in E.
      constructor; [constructor; assumption |].
      constructor; [exact E |].
      rewrite List.Forall_forall in *. intros b Hb.
      apply (dateline_ordered_trans d x a b); auto.
    + apply dateline_ordered_total in E.
      constructor; [exact IH |].
      rewrite List.Forall_forall in *. intros b Hb.
      apply insert_sorted_In in Hb as [-> | Hb]; auto.
Qed.

Lemma order_by_dateline_sorted (d : Direction) (l : list GroupTopic.t) :
  StronglySorted (dateline_ordered d) (Mem.order_by_dateline d l).
Proof.
  induction l as [| x l IH]; simpl.
  - constructor.
  - apply insert_sorted_sorted, IH.
Qed.

Lemma handle_with_ordered (b : bool) w d skip take s l s' :
  Mem.handle_with b (GroupTopicRepo_find w d skip take) s = Ok (l, s') ->
  StronglySorted (dateline_ordered d) l.
Proof.
  simpl. destruct ((skip <? 0) || (take <? 0)); [discriminate |].
  intros E. injection E as <- _.
  apply StronglySorted_page, order_by_dateline_sorted.
Qed.

Lemma forward_ordered : OrderedStore Mem.t (St := Mem.forward).
Proof. intros w d skip take s l s'. apply handle_with_ordered. Qed.

Lemma backward_ordered : OrderedStore Mem.t (St := Mem.backward).
Proof. intros w d skip take s l s'. apply handle_with_ordered. Qed.

End MemOrder.

(* ------------------------------------------------------------------ *)
(** * Claims on reply creation *)
(* ------------------------------------------------------------------ *)

Section ReplyClaims.
Import JS.


(** C2 fails on the code: the age is taken from [dateline], the column the
    listing reports as [createdAt], and reply creation writes the new sort
    timestamp into that same column.  Topic 364 starts with dateline 1000;
    a reply at 4600 leaves it at 4362; the reply at 8200 then ages the topic
    from 4362 and gives 8068, where the age from 1000 gives 7819. *)
Theorem C2_reply_overwrites_dateline :
  dateline_of 364 Examples.db = Some 1000
  /\ dateline_of 364 (store first_reply) = Some 4362
  /\ dateline_of 364 (store second_reply) = Some 8068
  /\ scoredUpdateTime (M := PowRef.ref_math) (Z2num 8200) group
       (Examples.topic 364 1 2 1000 ReplyState.Normal TopicDisplay.Normal)
     = Z2num 7819.
Proof. repeat split; vm_compute; reflexivity. Qed.

Lemma find_map_same_id (g : GroupTopic.t -> GroupTopic.t) (id : Z) (l : list GroupTopic.t) :
  (forall x, GroupTopic.id (g x) = GroupTopic.id x) ->
  List.find (fun x => GroupTopic.id x =? id) (map g l)
  = g <$> List.find (fun x => GroupTopic.id x =? id) l.
Proof.
  intros Hg. induction l as [| a l IH]; simpl; [reflexivity |].
  rewrite Hg. destruct (GroupTopic.id a =? id); [reflexivity | exact IH].
Qed.

(** C5: a successful reply to a topic whose state is AdminSilentTopic asks
    the store for one update of the topic, with [replies] one above the
    count read and [dateline] left undefined; after it every row of the
    topic table with another id is as it was, and the topic has one reply
    more, the [dateline] it had and all its other columns. *)
Theorem C5_sunk_topic_keeps_dateline {M : MathImpl}
    (now topicID userID : Z) (content : string) (parentID : Z) (state : option Z)
    (s : Mem.t) (topic : GroupTopic.t) (p : IPost.t) :
  List.find (fun x => GroupTopic.id x =? topicID) (Mem.topics s) = Some topic ->
  GroupTopic.state topic = ReplyState.AdminSilentTopic ->
  outcome (run (St := Mem.forward)
             (createTopicReply now group topicID userID content parentID state) s) = Ok p ->
  let r := run (St := Mem.forward)
             (createTopicReply now group topicID userID content parentID state) s in
  accesses r
  = [ GroupTopicRepo_findOne topicID;
      GroupPostRepo_save (saved_post now topicID userID content parentID state);
      GroupTopicRepo_update topicID
        {| upd_replies := GroupTopic.replies topic + 1; upd_dateline := None |};
      fetchUserX userID ]
  /\ Mem.topics (store r)
     = map (fun x => if GroupTopic.id x =? topicID
                     then Mem.set_replies_dateline (GroupTopic.replies topic + 1)
                                                   (GroupTopic.dateline x) x
                     else x)
           (Mem.topics s)
  /\ List.find (fun x => GroupTopic.id x =? topicID) (Mem.topics (store r))
     = Some (Mem.set_replies_dateline (GroupTopic.replies topic + 1)
                                      (GroupTopic.dateline topic) topic).
Proof.
  intros Hfind Hstate Hok r.
  assert (Hid : GroupTopic.id topic = topicID).
  { apply List.find_some in Hfind as [_ Hid]. apply Z.eqb_eq, Hid. }
  assert (Hrun : accesses r
                 = [ GroupTopicRepo_findOne topicID;
                     GroupPostRepo_save (saved_post now topicID userID content parentID state);
                     GroupTopicRepo_update topicID
                       {| upd_replies := GroupTopic.replies topic + 1; upd_dateline := None |};
                     fetchUserX userID ]
                 /\ Mem.topics (store r)
                    = map (fun x => if GroupTopic.id x =? topicID
                                    then Mem.set_replies_dateline (GroupTopic.replies topic + 1)
                                                                  (GroupTopic.dateline x) x
                                    else x)
                          (Mem.topics s)).
  { subst r. revert Hok. unfold createTopicReply, transaction, await, saved_post.
    cbn [Type_eqb negb bind run handle Mem.forward Mem.handle_with].
    rewrite Hfind. cbn [bind run handle Mem.forward Mem.handle_with].
    rewrite Hstate. cbn. rewrite Hid.
    destruct (List.find _ (Mem.users s)); cbn; [intros _; split; reflexivity | discriminate]. }
  destruct Hrun as [Hacc Hafter].
  split; [exact Hacc |]. split; [exact Hafter |].
  rewrite Hafter, find_map_same_id, Hfind.
  - simpl. rewrite Hid, Z.eqb_refl. reflexivity.
  - intros x. destruct (GroupTopic.id x =? topicID); reflexivity.
Qed.

Lemma C5_sunk_topic_keeps_dateline_witness :
  let r := run (St := Mem.forward)
             (createTopicReply (M := PowRef.ref_math) 4600 group 10 8 "hi" 0 None)
             Examples.db in
  accesses r
  = [ GroupTopicRepo_findOne 10;
      GroupPostRepo_save (saved_post 4600 10 8 "hi" 0 None);
      GroupTopicRepo_update 10 {| upd_replies := 3; upd_dateline := None |};
      fetchUserX 8 ]
  /\ Mem.topics (store r)
     = map (fun x => if GroupTopic.id x =? 10
                     then Mem.set_replies_dateline 3 (GroupTopic.dateline x) x
                     else x)
           (Mem.topics Examples.db)
  /\ List.find (fun x => GroupTopic.id x =? 10) (Mem.topics (store r))
     = Some (Mem.set_replies_dateline 3 1000 Examples.sunk).
Proof.
  apply (C5_sunk_topic_keeps_dateline (M := PowRef.ref_math)
           4600 10 8 "hi" 0 None Examples.db Examples.sunk
           (IPost.mk 13 group (Examples.user 8 "bob") 4600 0 10 "hi")).
  - reflexivity.
  - reflexivity.
  - vm_compute. reflexivity.
Defined.

End ReplyClaims.

(* ------------------------------------------------------------------ *)
(** * Claims on the topic listing *)
(* ------------------------------------------------------------------ *)

Section ListingClaims.


(** C6, as stated, fails: a store that answers in the order asked, here the
    one that scans backward, lists the topics 21 and 20 of group 2, both
    dated 5000, in that order. *)
Lemma C6_counterexample :
  ~ (forall (D : Display) (S : Type) (St : Store S) (O : OrderedStore S)
            (auth : IAuth) (id : Z) (page : Page.t) (s : S)
            (total : Z) (topics : list ITopic.t),
        outcome (run (fetchTopicList auth group id page) s) = Ok (total, topics) ->
        StronglySorted by_dateline_then_id topics).
Proof.
  intros Hclaim.
  specialize (Hclaim Examples.policy Mem.t Mem.backward backward_ordered
                     false 2 (Page.mk None None) Examples.db).
  specialize (Hclaim _ _ eq_refl).
  inversion Hclaim as [| a l _ Hall]; subst.
  inversion Hall as [| b l' [_ Htie] _]; subst.
  specialize (Htie eq_refl). vm_compute in Htie. discriminate Htie.
Qed.

(** C6 (amended): on a store that answers in the order asked, the topics
    returned are sorted by sort timestamp ([dateline], reported as
    [createdAt]) descending; the order among equal sort timestamps is the
    store's. *)
Theorem C6_sorted_by_dateline {D : Display} {S : Type} {St : Store S}
    (O : OrderedStore S) (auth : IAuth) (id : Z) (page : Page.t) (s : S)
    (total : Z) (topics : list ITopic.t) :
  outcome (run (fetchTopicList auth group id page) s) = Ok (total, topics) ->
  StronglySorted (fun a b => ITopic.createdAt b <= ITopic.createdAt a) topics.
Proof.
  unfold fetchTopicList, await. cbn [Type_eqb negb bind run].
  destruct (handle (GroupTopicRepo_count _) s) as [[n s1] | e]; cbn [bind run outcome];
    [| discriminate].
  destruct (handle (GroupTopicRepo_find _ _ _ _) s1) as [[rows s2] | e] eqn:Efind;
    cbn [bind run outcome]; [| discriminate].
  intros E. injection E as _ <-.
  apply find_ordered in Efind.
  apply (StronglySorted_map (dateline_ordered desc)); [| exact Efind].
  intros a b Hab. exact Hab.
Qed.

Lemma C6_sorted_by_dateline_witness :
  StronglySorted (fun a b => ITopic.createdAt b <= ITopic.createdAt a)
    (map toITopic [Examples.twin_a; Examples.twin_b; Examples.older]).
Proof.
  apply (C6_sorted_by_dateline (D := Examples.policy) (St := Mem.forward) forward_ordered
           false 2 (Page.mk None None) Examples.db 3).
  vm_compute. reflexivity.
Defined.

(** C7, as stated, fails: with offset -1 the listing of group 2 still asks
    the store for the count and for the page. *)
Lemma C7_counterexample :
  ~ (forall (D : Display) (S : Type) (St : Store S)
            (auth : IAuth) (type : Type_) (id : Z) (page : Page.t) (s : S),
        default 0 (Page.offset page) < 0 \/ default 30 (Page.limit page) < 0 ->
        (exists e, outcome (run (fetchTopicList auth type id page) s) = Err e)
        /\ accesses (run (fetchTopicList auth type id page) s) = []).
Proof.
  intros Hclaim.
  destruct (Hclaim Examples.policy Mem.t Mem.forward false group 2
                   (Page.mk None (Some (-1))) Examples.db) as [_ Hnone].
  - left. simpl. lia.
  - vm_compute in Hnone. discriminate Hnone.
Qed.

(** C7 (amended): the listing checks the topic type and nothing else.  For
    a type other than group it throws UnimplementedError with no request
    to the store; for group it asks for the count and then, the count
    answered, for the page with [skip] and [take] the offset and limit as
    given, of either sign. *)
Theorem C7_only_the_type_is_checked {D : Display} {S : Type} {St : Store S}
    (auth : IAuth) (type : Type_) (id : Z) (page : Page.t) (s : S) :
  let where_ := {| where_gid := id; where_display_in := ListTopicDisplays auth |} in
  match type with
  | subject =>
      run (fetchTopicList auth type id page) s
      = {| outcome := Err (UnimplementedError "topic type subject");
           store := s; accesses := [] |}
  | group =>
      accesses (run (fetchTopicList auth type id page) s)
      = GroupTopicRepo_count where_
          :: match handle (GroupTopicRepo_count where_) s with
             | Ok _ =>
                 [GroupTopicRepo_find where_ desc
                    (default 0 (Page.offset page)) (default 30 (Page.limit page))]
             | Err _ => []
             end
  end.
Proof.
  destruct type; [| reflexivity].
  unfold fetchTopicList, await. cbn [Type_eqb negb bind run].
  destruct (handle (GroupTopicRepo_count _) s) as [[n s1] | e]; cbn [bind run accesses];
    [| reflexivity].
  destruct (handle (GroupTopicRepo_find _ _ _ _) s1) as [[rows s2] | e]; reflexivity.
Qed.

End ListingClaims.

(* ------------------------------------------------------------------ *)
(** * The thread assembler *)
(* ------------------------------------------------------------------ *)


Section Assembler.

Lemma filter_filter_andb {A : Type} (f g : A -> bool) (l : list A) :
  List.filter f (List.filter g l) = List.filter (fun x => f x && g x) l.
Proof.
  induction l as [| a l IH]; simpl; [reflexivity |].
  destruct (g a); simpl.
  - rewrite andb_true_r. destruct (f a); simpl; congruence.
  - rewrite andb_false_r. exact IH.
Qed.

(** The fold of [subReplies] from any map: under [k], what was there
    followed by the posts whose [related] is [k]. *)
Lemma subReplies_fold (l : list GroupPost.t) :
  forall (acc : gmap Z (list ISubReply.t)) (k : Z),
    default [] (fold_left
                  (fun (acc : gmap Z (list ISubReply.t)) (x : GroupPost.t) =>
                     <[GroupPost.related x :=
                         default [] (acc !! GroupPost.related x) ++ [sub x]]> acc)
                  l acc !! k)
    = default [] (acc !! k)
      ++ map sub (List.filter (fun x => GroupPost.related x =? k) l).
Proof.
  induction l as [| x l IH]; intros acc k; simpl.
  - rewrite app_nil_r. reflexivity.
  - rewrite IH. destruct (Z.eqb_spec (GroupPost.related x) k) as [-> | Hne].
    + rewrite lookup_insert_eq. simpl. rewrite <- app_assoc. reflexivity.
    + rewrite lookup_insert_ne by exact Hne. reflexivity.
Qed.

Lemma subReplies_lookup (replies : list GroupPost.t) (k : Z) :
  default [] (subReplies replies !! k) = map sub (children k replies).
Proof.
  unfold subReplies, children.
  rewrite subReplies_fold, lookup_empty, filter_filter_andb. reflexivity.
Qed.

Lemma NoDup_map_injective {A B : Type} (f : A -> B) (l : list A) :
  List.NoDup (map f l) ->
  forall x y, In x l -> In y l -> f x = f y -> x = y.
Proof.
  induction l as [| a l IH]; simpl; intros Hnd x y Hx Hy Hxy; [contradiction |].
  apply List.NoDup_cons_iff in Hnd as [Hnotin Hnd].
  destruct Hx as [-> | Hx], Hy as [-> | Hy]; auto.
  - exfalso. apply Hnotin. rewrite Hxy. apply List.in_map, Hy.
  - exfalso. apply Hnotin. rewrite <- Hxy. apply List.in_map, Hx.
Qed.

Lemma NoDup_map_filter {A B : Type} (f : A -> B) (p : A -> bool) (l : list A) :
  List.NoDup (map f l) -> List.NoDup (map f (List.filter p l)).
Proof.
  induction l as [| a l IH]; simpl; intros Hnd; [constructor |].
  apply List.NoDup_cons_iff in Hnd as [Hnotin Hnd].
  destruct (p a); simpl; [| auto].
  constructor; [| auto].
  intros Hin. apply Hnotin.
  apply List.in_map_iff in Hin as (x & Hx & Hin).
  apply List.filter_In in Hin as [Hin _].
  rewrite <- Hx. apply List.in_map, Hin.
Qed.

(** The children of distinct keys, one key after the other, repeat no post. *)
Lemma children_concat_NoDup (replies : list GroupPost.t) (keys : list Z) :
  List.NoDup (map GroupPost.id replies) ->
  List.NoDup keys ->
  List.NoDup (concat (map (fun k => map GroupPost.id (children k replies)) keys)).
Proof.
  intros Hids. induction 1 as [| k keys Hnotin Hkeys IH]; simpl; [constructor |].
  apply List.NoDup_app; [apply NoDup_map_filter, Hids | exact IH |].
  intros i Hi Hi'.
  apply List.in_map_iff in Hi as (x & Hx & Hxin).
  apply List.filter_In in Hxin as [Hxin Hxk].
  apply List.in_concat in Hi' as (ids & Hids' & Hi').
  apply List.in_map_iff in Hids' as (k' & <- & Hk').
  apply List.in_map_iff in Hi' as (y & Hy & Hyin).
  apply List.filter_In in Hyin as [Hyin Hyk].
  assert (x = y) as -> by (apply (NoDup_map_injective GroupPost.id replies); congruence).
  apply andb_true_iff in Hxk as [Hxk _], Hyk as [Hyk _].
  apply Z.eqb_eq in Hxk, Hyk. apply Hnotin. congruence.
Qed.

Context {D : Display}.
Hypothesis filterReply_keeps : keeps_structure filterReply.

(** A reply of the rendered list comes from a top-level post, and shows
    the children of that post. *)
Lemma topLevelReplies_In (replies : list GroupPost.t) (r : IReply.t) :
  In r (topLevelReplies replies) ->
  exists y,
    In y replies /\ GroupPost.related y = 0 /\ IReply.id r = GroupPost.id y
    /\ shown_under r = map GroupPost.id (children (GroupPost.id y) replies)
    /\ map ISubReply.repliedTo (IReply.replies r)
       = map GroupPost.related (children (GroupPost.id y) replies).
Proof.
  unfold topLevelReplies. intros Hr.
  apply List.in_map_iff in Hr as (r0 & <- & Hr0).
  apply List.in_map_iff in Hr0 as (y & <- & Hy).
  apply List.filter_In in Hy as [Hy Htop]. apply Z.eqb_eq in Htop.
  destruct (filterReply_keeps (toReply (subReplies replies) y)) as (Hid & Hsub & Hpar).
  exists y. unfold shown_under. rewrite Hid, Hsub, Hpar. simpl.
  rewrite subReplies_lookup, !List.map_map. auto.
Qed.

Lemma topLevelReplies_ids (replies : list GroupPost.t) :
  map IReply.id (topLevelReplies replies)
  = map GroupPost.id (List.filter (fun x => GroupPost.related x =? 0) replies).
Proof.
  unfold topLevelReplies. rewrite !List.map_map.
  apply List.map_ext. intros y.
  destruct (filterReply_keeps (toReply (subReplies replies) y)) as (Hid & _). exact Hid.
Qed.

Lemma topLevelReplies_shown (replies : list GroupPost.t) :
  map shown_under (topLevelReplies replies)
  = map (fun k => map GroupPost.id (children k replies))
        (map GroupPost.id (List.filter (fun x => GroupPost.related x =? 0) replies)).
Proof.
  unfold topLevelReplies, shown_under. rewrite !List.map_map.
  apply List.map_ext. intros y.
  destruct (filterReply_keeps (toReply (subReplies replies) y)) as (_ & Hsub & _).
  rewrite Hsub. simpl. rewrite subReplies_lookup, List.map_map. reflexivity.
Qed.

End Assembler.

(* ------------------------------------------------------------------ *)
(** * Claims on the rendered thread *)
(* ------------------------------------------------------------------ *)

Section ThreadClaims.
Context {D : Display} {S : Type} {St : Store S}.

(** The thread of a topic the actor may read, with its posts [top :: rest]. *)
Lemma fetchDetail_visible (auth : IAuth) (type : Type_) (id : Z)
    (s s1 s2 : S) (topic : GroupTopic.t) (top : GroupPost.t) (rest : list GroupPost.t) :
  handle (GroupTopicRepo_findOne id) s = Ok (Some topic, s1) ->
  CanViewTopicContent auth topic = true ->
  handle (GroupPostRepo_find (GroupTopic.id topic)) s1 = Ok (top :: rest, s2) ->
  run (fetchDetail auth type id) s
  = {| outcome :=
         Ok (Some {| ITopicDetails.id := GroupTopic.id topic;
                     ITopicDetails.title := GroupTopic.title topic;
                     ITopicDetails.parentID := GroupTopic.gid topic;
                     ITopicDetails.text := GroupPost.content top;
                     ITopicDetails.display := GroupTopic.display topic;
                     ITopicDetails.state := GroupTopic.state topic;
                     ITopicDetails.replies := topLevelReplies rest;
                     ITopicDetails.creatorID := GroupPost.uid top;
                     ITopicDetails.createdAt := GroupPost.dateline top |});
       store := s2;
       accesses := [GroupTopicRepo_findOne id; GroupPostRepo_find (GroupTopic.id topic)] |}.
Proof.
  intros Hfind Hview Hposts.
  unfold fetchDetail, await. cbn [bind run].
  rewrite Hfind. cbn [bind run]. rewrite Hview. cbn [negb bind run].
  rewrite Hposts. reflexivity.
Qed.

(** C8: [fetchDetail] answers [null] when no topic has the id and when the
    actor may not read the topic found, with the same run in both cases:
    one lookup of the topic, no error, nothing else asked of the store. *)
Theorem C8_hidden_is_absent (auth : IAuth) (type : Type_) (id : Z)
    (s s1 : S) (found : option GroupTopic.t) :
  handle (GroupTopicRepo_findOne id) s = Ok (found, s1) ->
  found = None
  \/ (exists topic, found = Some topic /\ CanViewTopicContent auth topic = false) ->
  run (fetchDetail auth type id) s
  = {| outcome := Ok None; store := s1; accesses := [GroupTopicRepo_findOne id] |}.
Proof.
  intros Hfind Hcase.
  unfold fetchDetail, await. cbn [bind run]. rewrite Hfind. cbn [bind run].
  destruct Hcase as [-> | (topic & -> & Hview)].
  - reflexivity.
  - rewrite Hview. reflexivity.
Qed.

(** C10: for an actor who may read the topic, the thread carries the
    content, the author and the date of the top post as the store gave
    them; [filterReply] is mapped over the top-level replies only. *)
Theorem C10_top_post_as_stored (auth : IAuth) (type : Type_) (id : Z)
    (s s1 s2 : S) (topic : GroupTopic.t) (top : GroupPost.t) (rest : list GroupPost.t) :
  handle (GroupTopicRepo_findOne id) s = Ok (Some topic, s1) ->
  CanViewTopicContent auth topic = true ->
  handle (GroupPostRepo_find (GroupTopic.id topic)) s1 = Ok (top :: rest, s2) ->
  exists d,
    outcome (run (fetchDetail auth type id) s) = Ok (Some d)
    /\ ITopicDetails.text d = GroupPost.content top
    /\ ITopicDetails.creatorID d = GroupPost.uid top
    /\ ITopicDetails.createdAt d = GroupPost.dateline top
    /\ ITopicDetails.replies d
       = map filterReply
           (map (toReply (subReplies rest))
                (List.filter (fun x => GroupPost.related x =? 0) rest)).
Proof.
  intros Hfind Hview Hposts.
  rewrite (fetchDetail_visible auth type id s s1 s2 topic top rest Hfind Hview Hposts).
  eexists. split; [reflexivity |]. simpl. auto.
Qed.

(** C4: in the rendered thread, with post ids distinct and a redaction
    that keeps ids and parents, (1) a sub-reply shown under a reply has
    that reply's id as [repliedTo]; (2) a post with a non-zero [related]
    is shown under a reply exactly when the reply's id is its [related];
    (3) it is shown there when that id is the id of a top-level post;
    (4) no sub-reply is shown twice; (5) the sub-replies under a reply are
    the posts with its id as [related], in the order of the posts; (6) a
    post whose non-zero [related] is the id of no top-level post is shown
    nowhere, neither as a reply nor under one.  The top-level posts are the
    posts after the top post whose [related] is zero. *)
Theorem C4_sub_replies_under_their_parent (auth : IAuth) (type : Type_) (id : Z)
    (s s1 s2 : S) (topic : GroupTopic.t) (top : GroupPost.t) (rest : list GroupPost.t) :
  keeps_structure filterReply ->
  handle (GroupTopicRepo_findOne id) s = Ok (Some topic, s1) ->
  CanViewTopicContent auth topic = true ->
  handle (GroupPostRepo_find (GroupTopic.id topic)) s1 = Ok (top :: rest, s2) ->
  List.NoDup (map GroupPost.id rest) ->
  exists d,
    outcome (run (fetchDetail auth type id) s) = Ok (Some d)
    /\ (forall r sr, In r (ITopicDetails.replies d) -> In sr (IReply.replies r) ->
          ISubReply.repliedTo sr = IReply.id r)
    /\ (forall x r, In x rest -> GroupPost.related x <> 0 ->
          In r (ITopicDetails.replies d) ->
          (In (GroupPost.id x) (shown_under r) <-> IReply.id r = GroupPost.related x))
    /\ (forall x y, In x rest -> GroupPost.related x <> 0 ->
          In y rest -> GroupPost.related y = 0 -> GroupPost.related x = GroupPost.id y ->
          exists r, In r (ITopicDetails.replies d)
                    /\ IReply.id r = GroupPost.id y
                    /\ In (GroupPost.id x) (shown_under r))
    /\ List.NoDup (concat (map shown_under (ITopicDetails.replies d)))
    /\ (forall r, In r (ITopicDetails.replies d) ->
          shown_under r = map GroupPost.id (children (IReply.id r) rest))
    /\ (forall x, In x rest -> GroupPost.related x <> 0 ->
          (forall y, In y rest -> GroupPost.related y = 0 ->
                     GroupPost.id y <> GroupPost.related x) ->
          forall r, In r (ITopicDetails.replies d) ->
                    IReply.id r <> GroupPost.id x /\ ~ In (GroupPost.id x) (shown_under r)).
Proof.
  intros Hkeep Hfind Hview Hposts Hids.
  rewrite (fetchDetail_visible auth type id s s1 s2 topic top rest Hfind Hview Hposts).
  eexists. split; [reflexivity |]. cbn [ITopicDetails.replies].
  assert (Hshown : forall x r, In x rest -> GroupPost.related x <> 0 ->
            In r (topLevelReplies rest) ->
            (In (GroupPost.id x) (shown_under r) <-> IReply.id r = GroupPost.related x)).
  { intros x r Hx Hrel Hr.
    destruct (topLevelReplies_In Hkeep rest r Hr) as (y & Hy & Htop & Hid & Hsh & _).
    rewrite Hsh, Hid. split.
    - intros Hin. apply List.in_map_iff in Hin as (x' & Hx' & Hin).
      apply List.filter_In in Hin as [Hin Hk].
      apply andb_true_iff in Hk as [Hk _]. apply Z.eqb_eq in Hk.
      assert (x' = x) as -> by (apply (NoDup_map_injective GroupPost.id rest); auto).
      congruence.
    - intros Hk. apply List.in_map. apply List.filter_In. split; [exact Hx |].
      apply andb_true_iff. split; [apply Z.eqb_eq; congruence |].
      apply negb_true_iff, Z.eqb_neq, Hrel. }
  split; [| split; [| split; [| split; [| split]]]].
  - intros r sr Hr Hsr.
    destruct (topLevelReplies_In Hkeep rest r Hr) as (y & _ & _ & Hid & _ & Hpar).
    assert (Hin : In (ISubReply.repliedTo sr) (map ISubReply.repliedTo (IReply.replies r)))
      by (apply List.in_map, Hsr).
    rewrite Hpar in Hin. apply List.in_map_iff in Hin as (x & <- & Hx).
    apply List.filter_In in Hx as [_ Hk].
    apply andb_true_iff in Hk as [Hk _]. apply Z.eqb_eq in Hk. congruence.
  - intros x r Hx Hrel Hr. apply Hshown; assumption.
  - intros x y Hx Hrel Hy Htop Hxy.
    assert (Hiny : In (GroupPost.id y) (map IReply.id (topLevelReplies rest))).
    { rewrite (topLevelReplies_ids Hkeep). apply List.in_map, List.filter_In.
      split; [exact Hy | apply Z.eqb_eq, Htop]. }
    apply List.in_map_iff in Hiny as (r & Hid & Hr).
    exists r. repeat split; [exact Hr | exact Hid |].
    apply (Hshown x r Hx Hrel Hr). congruence.
  - rewrite (topLevelReplies_shown Hkeep).
    apply children_concat_NoDup; [exact Hids |].
    apply NoDup_map_filter, Hids.
  - intros r Hr.
    destruct (topLevelReplies_In Hkeep rest r Hr) as (y & _ & _ & Hid & Hsh & _).
    rewrite Hsh, Hid. reflexivity.
  - intros x Hx Hrel Horphan r Hr.
    destruct (topLevelReplies_In Hkeep rest r Hr) as (y & Hy & Htop & Hid & _).
    split.
    + intros Heq.
      assert (y = x) as -> by (apply (NoDup_map_injective GroupPost.id rest); congruence).
      contradiction.
    + intros Hin. apply (Hshown x r Hx Hrel Hr) in Hin.
      apply (Horphan y Hy Htop). congruence.
Qed.

End ThreadClaims.

(* ------------------------------------------------------------------ *)
(** * The claims on the example store *)
(* ------------------------------------------------------------------ *)

Section ThreadWitnesses.


Lemma policy_keeps_structure : keeps_structure (filterReply (Display := Examples.policy)).
Proof.
  intros r. simpl. repeat split; rewrite List.map_map; apply List.map_ext;
    intros x; unfold Examples.blank; destruct (_ || _); reflexivity.
Qed.

Lemma rest_364_ids : List.NoDup (map GroupPost.id rest_364).
Proof.
  vm_compute. repeat constructor; simpl; intuition discriminate.
Qed.

Lemma C8_hidden_is_absent_witness :
  run (St := Mem.forward) (fetchDetail (D := Examples.policy) false group 11) Examples.db
  = {| outcome := Ok None; store := Examples.db; accesses := [GroupTopicRepo_findOne 11] |}.
Proof.
  apply (C8_hidden_is_absent (D := Examples.policy) (St := Mem.forward)
           false group 11 Examples.db Examples.db (Some Examples.banned)).
  - reflexivity.
  - right. exists Examples.banned. split; reflexivity.
Defined.

Lemma C10_top_post_as_stored_witness :
  exists d,
    outcome (run (St := Mem.forward) (fetchDetail (D := Examples.policy) false group 364)
               Examples.db) = Ok (Some d)
    /\ ITopicDetails.text d = "top"%string
    /\ ITopicDetails.creatorID d = 7
    /\ ITopicDetails.createdAt d = 1001
    /\ ITopicDetails.replies d
       = map (filterReply (Display := Examples.policy))
           (map (toReply (subReplies rest_364))
                (List.filter (fun x => GroupPost.related x =? 0) rest_364)).
Proof.
  apply (C10_top_post_as_stored (D := Examples.policy) (St := Mem.forward)
           false group 364 Examples.db Examples.db Examples.db
           Examples.topic_364_of_1 top_364 rest_364).
  - reflexivity.
  - reflexivity.
  - reflexivity.
Defined.

Lemma C4_sub_replies_under_their_parent_witness :
  exists d,
    outcome (run (St := Mem.forward) (fetchDetail (D := Examples.policy) false group 364)
               Examples.db) = Ok (Some d)
    /\ (forall r sr, In r (ITopicDetails.replies d) -> In sr (IReply.replies r) ->
          ISubReply.repliedTo sr = IReply.id r)
    /\ (forall x r, In x rest_364 -> GroupPost.related x <> 0 ->
          In r (ITopicDetails.replies d) ->
          (In (GroupPost.id x) (shown_under r) <-> IReply.id r = GroupPost.related x))
    /\ (forall x y, In x rest_364 -> GroupPost.related x <> 0 ->
          In y rest_364 -> GroupPost.related y = 0 -> GroupPost.related x = GroupPost.id y ->
          exists r, In r (ITopicDetails.replies d)
                    /\ IReply.id r = GroupPost.id y
                    /\ In (GroupPost.id x) (shown_under r))
    /\ List.NoDup (concat (map shown_under (ITopicDetails.replies d)))
    /\ (forall r, In r (ITopicDetails.replies d) ->
          shown_under r = map GroupPost.id (children (IReply.id r) rest_364))
    /\ (forall x, In x rest_364 -> GroupPost.related x <> 0 ->
          (forall y, In y rest_364 -> GroupPost.related y = 0 ->
                     GroupPost.id y <> GroupPost.related x) ->
          forall r, In r (ITopicDetails.replies d) ->
                    IReply.id r <> GroupPost.id x /\ ~ In (GroupPost.id x) (shown_under r)).
Proof.
  apply (C4_sub_replies_under_their_parent (D := Examples.policy) (St := Mem.forward)
           false group 364 Examples.db Examples.db Examples.db
           Examples.topic_364_of_1 top_364 rest_364).
  - exact policy_keeps_structure.
  - reflexivity.
  - reflexivity.
  - reflexivity.
  - exact rest_364_ids.
Defined.

(** The thread of topic 364 on the example store: reply 2 with the
    sub-replies 3 and 6, reply 5 with the sub-reply 7; the posts 4 (a reply
    to the sub-reply 3) and 8 (a reply to the top post 1) are not shown. *)
Example thread_364_shown :
  match outcome (run (St := Mem.forward) (fetchDetail (D := Examples.policy) false group 364)
                   Examples.db) with
  | Ok (Some d) =>
      map (fun r => (IReply.id r, shown_under r)) (ITopicDetails.replies d)
      = [(2, [3; 6]); (5, [7])]
  | _ => False
  end.
Proof. vm_compute. reflexivity. Qed.

End ThreadWitnesses.

(* ------------------------------------------------------------------ *)
(** * Integers as numbers *)
(* ------------------------------------------------------------------ *)

Section IntegerNumbers.

Lemma digits2_pos_bounds (m : positive) :
  2 ^ (Z.pos (digits2_pos m) - 1) <= Z.pos m < 2 ^ Z.pos (digits2_pos m).
Proof.
  induction m as [m IH | m IH |]; simpl digits2_pos.
  - rewrite Pos2Z.inj_succ, Z.pow_succ_r by lia.
    replace (Z.succ (Z.pos (digits2_pos m)) - 1)
      with (Z.succ (Z.pos (digits2_pos m) - 1)) by lia.
    rewrite Z.pow_succ_r by lia. lia.
  - rewrite Pos2Z.inj_succ, Z.pow_succ_r by lia.
    replace (Z.succ (Z.pos (digits2_pos m)) - 1)
      with (Z.succ (Z.pos (digits2_pos m) - 1)) by lia.
    rewrite Z.pow_succ_r by lia. lia.
  - simpl. lia.
Qed.

Lemma iter_xO_value (m k : positive) : Z.pos (Pos.iter xO m k) = Z.pos m * 2 ^ Z.pos k.
Proof.
  rewrite <- Pos2Z.inj_pow, <- Pos2Z.inj_mul. f_equal.
  induction k using Pos.peano_ind.
  - simpl. lia.
  - rewrite Pos.iter_succ, Pos.pow_succ_r. lia.
Qed.

Lemma digits2_pos_iter_xO (m k : positive) :
  digits2_pos (Pos.iter xO m k) = (digits2_pos m + k)%positive.
Proof.
  induction k using Pos.peano_ind.
  - simpl. lia.
  - rewrite Pos.iter_succ. simpl. rewrite IHk. lia.
Qed.

(** An integer below 2^53 is represented exactly: its mantissa is the
    integer shifted left to 53 bits. *)
Lemma binary_round_integer (s : bool) (m : positive) :
  Z.pos m < 2 ^ 53 ->
  exists m' e, binary_round JS.prec JS.emax s m 0 = S754_finite s m' e
               /\ e <= 0 /\ Z.pos m' = Z.pos m * 2 ^ (- e).
Proof.
  intros Hm.
  pose proof (digits2_pos_bounds m) as Hd.
  assert (Hd53 : Z.pos (digits2_pos m) <= 53).
  { destruct (Z_le_gt_dec (Z.pos (digits2_pos m)) 53) as [| Hgt]; [assumption |].
    exfalso.
    assert (2 ^ 53 <= 2 ^ (Z.pos (digits2_pos m) - 1)) by (apply Z.pow_le_mono_r; lia).
    lia. }
  unfold binary_round.
  replace (fexp JS.prec JS.emax (Z.pos (digits2_pos m) + 0))
    with (Z.pos (digits2_pos m) - 53)
    by (unfold fexp, emin, JS.prec, JS.emax; lia).
  unfold shl_align.
  destruct (Z.pos (digits2_pos m) - 53 - 0) as [| k | k] eqn:Ek; try lia.
  - exists m, 0. split; [| split; [lia | simpl; lia]].
    unfold binary_round_aux, shr_fexp. cbn [Zdigits2].
    replace (fexp JS.prec JS.emax (Z.pos (digits2_pos m) + 0) - 0) with 0
      by (unfold fexp, emin, JS.prec, JS.emax; lia).
    cbn.
    replace (fexp JS.prec JS.emax (Z.pos (digits2_pos m) + 0) - 0) with 0
      by (unfold fexp, emin, JS.prec, JS.emax; lia).
    reflexivity.
  - exists (Pos.iter xO m k), (Z.pos (digits2_pos m) - 53).
    split; [| split; [lia |]].
    + unfold binary_round_aux, shr_fexp. cbn [Zdigits2].
      rewrite digits2_pos_iter_xO.
      replace (fexp JS.prec JS.emax
                 (Z.pos (digits2_pos m + k) + (Z.pos (digits2_pos m) - 53))
               - (Z.pos (digits2_pos m) - 53)) with 0
        by (unfold fexp, emin, JS.prec, JS.emax; lia).
      cbn [shr shr_record_of_loc shr_m loc_of_shr_record round_nearest_even
             shr_r shr_s Zdigits2].
      rewrite digits2_pos_iter_xO.
      replace (fexp JS.prec JS.emax
                 (Z.pos (digits2_pos m + k) + (Z.pos (digits2_pos m) - 53))
               - (Z.pos (digits2_pos m) - 53)) with 0
        by (unfold fexp, emin, JS.prec, JS.emax; lia).
      cbn [shr shr_m].
      replace (Z.pos (digits2_pos m) - 53 <=? JS.emax - JS.prec) with true;
        [reflexivity |].
      symmetry. apply Z.leb_le. unfold JS.emax, JS.prec. lia.
    + rewrite iter_xO_value. f_equal. f_equal. lia.
Qed.

Lemma integral_shifted (m m' : positive) (e : Z) :
  e <= 0 -> Z.pos m' = Z.pos m * 2 ^ (- e) -> JS.integral m' e = Some (Z.pos m).
Proof.
  intros He Hm'. unfold JS.integral.
  destruct (Z.leb_spec 0 e) as [H0 | Hneg].
  - assert (e = 0) as -> by lia. simpl in Hm'. rewrite Hm'. f_equal. simpl. lia.
  - assert (Hpow : 0 < 2 ^ (- e)) by (apply Z.pow_pos_nonneg; lia).
    rewrite Hm', Z.mod_mul by lia. simpl.
    rewrite Z.div_mul by lia. reflexivity.
Qed.

(** An integer below 2^53 in magnitude goes to a number and back unchanged. *)
Lemma num2Z_Z2num (z : Z) : Z.abs z < 2 ^ 53 -> Mem.num2Z (JS.Z2num z) = Some z.
Proof.
  intros Hz. destruct z as [| m | m]; [reflexivity | |];
    unfold JS.Z2num, binary_normalize.
  - destruct (binary_round_integer false m) as (m' & e & -> & He & Hm'); [simpl in Hz; lia |].
    simpl. rewrite (integral_shifted m m' e He Hm'). reflexivity.
  - destruct (binary_round_integer true m) as (m' & e & -> & He & Hm'); [simpl in Hz; lia |].
    simpl. rewrite (integral_shifted m m' e He Hm'). reflexivity.
Qed.

End IntegerNumbers.

(* ------------------------------------------------------------------ *)
(** * Reply creation on the in-memory store *)
(* ------------------------------------------------------------------ *)

Section ReplyOnMem.
Import JS.
Context {M : MathImpl}.

(** The run of [createTopicReply] on the in-memory store, case by case. *)
Lemma createTopicReply_mem (now topicID userID : Z) (content : string) (parentID : Z)
    (state : option Z) (s : Mem.t) :
  let r := run (St := Mem.forward)
             (createTopicReply now group topicID userID content parentID state) s in
  let row := saved_row s (saved_post now topicID userID content parentID state) in
  match List.find (fun x => GroupTopic.id x =? topicID) (Mem.topics s) with
  | None => outcome r = Err EntityNotFoundError /\ store r = s
  | Some topic =>
      match written_dateline (topic_update now topic) with
      | None => outcome r = Err QueryFailedError /\ store r = s
      | Some d =>
          store r = committed topic d row s
          /\ outcome r
             = match List.find (fun u => IUser.ID u =? userID) (Mem.users s) with
               | Some u => Ok (post_view row u)
               | None => Err EntityNotFoundError
               end
      end
  end.
Proof.
  intros r row. subst r row.
  unfold createTopicReply, transaction, await.
  cbn [Type_eqb negb bind run handle Mem.forward Mem.handle_with].
  destruct (List.find _ (Mem.topics s)) as [topic |] eqn:Hfind;
    cbn [bind run handle Mem.forward Mem.handle_with outcome store]; [| split; reflexivity].
  unfold written_dateline, topic_update.
  destruct (negb (GroupTopic.state topic =? ReplyState.AdminSilentTopic)).
  - cbn [upd_dateline].
    destruct (Mem.num2Z (scoredUpdateTime (Z2num now) group topic)) as [d |];
      cbn; [| split; reflexivity].
    destruct (List.find _ (Mem.users s)); cbn; split; reflexivity.
  - cbn. destruct (List.find _ (Mem.users s)); cbn; split; reflexivity.
Qed.

Lemma find_topic_id (topicID : Z) (l : list GroupTopic.t) (topic : GroupTopic.t) :
  List.find (fun x => GroupTopic.id x =? topicID) l = Some topic ->
  In topic l /\ GroupTopic.id topic = topicID.
Proof.
  intros Hfind. apply List.find_some in Hfind as [Hin Hid].
  split; [exact Hin | apply Z.eqb_eq, Hid].
Qed.

(** A committed reply keeps the count of replies right. *)
Lemma committed_counted (topic : GroupTopic.t) (d : option Z) (row : GroupPost.t) (s : Mem.t) :
  In topic (Mem.topics s) ->
  GroupPost.topicID row = GroupTopic.id topic ->
  replies_counted s -> replies_counted (committed topic d row s).
Proof.
  intros Hin Hrow Hinv t Ht.
  unfold committed, topics_after in Ht. cbn [Mem.topics] in Ht.
  apply List.in_map_iff in Ht as (x & <- & Hx).
  unfold posts_of, committed. cbn [Mem.posts].
  rewrite List.filter_app, List.length_app. cbn [List.filter].
  destruct (Z.eqb_spec (GroupTopic.id x) (GroupTopic.id topic)) as [Heq | Hne].
  - cbn [Mem.set_replies_dateline GroupTopic.id GroupTopic.replies].
    rewrite Hrow, Heq, Z.eqb_refl. cbn [length].
    rewrite (Hinv topic Hin). unfold posts_of. lia.
  - rewrite Hrow.
    destruct (Z.eqb_spec (GroupTopic.id topic) (GroupTopic.id x)) as [Heq | _];
      [congruence |].
    cbn [length]. rewrite (Hinv x Hx). unfold posts_of. lia.
Qed.

(** X2: whatever its outcome, a reply leaves every topic of the in-memory
    store counting its posts but the first, when it found them so. *)
Theorem createTopicReply_keeps_count (now topicID userID : Z) (content : string)
    (parentID : Z) (state : option Z) (s : Mem.t) :
  replies_counted s ->
  replies_counted
    (store (run (St := Mem.forward)
              (createTopicReply now group topicID userID content parentID state) s)).
Proof.
  intros Hinv.
  pose proof (createTopicReply_mem now topicID userID content parentID state s) as Hrun.
  cbv zeta in Hrun.
  destruct (List.find _ (Mem.topics s)) as [topic |] eqn:Hfind.
  - destruct (find_topic_id _ _ _ Hfind) as [Hin Hid].
    destruct (written_dateline _) as [d |].
    + destruct Hrun as [-> _]. apply committed_counted; auto.
    + destruct Hrun as [_ ->]. exact Hinv.
  - destruct Hrun as [_ ->]. exact Hinv.
Qed.

(** X3: a reply is written whole or not at all: the in-memory store after
    it is the store before, or it has one more post, the one saved, and
    the topic found has one reply more. *)
Theorem createTopicReply_all_or_nothing (now topicID userID : Z) (content : string)
    (parentID : Z) (state : option Z) (s : Mem.t) :
  let r := run (St := Mem.forward)
             (createTopicReply now group topicID userID content parentID state) s in
  store r = s
  \/ exists topic d,
       List.find (fun x => GroupTopic.id x =? topicID) (Mem.topics s) = Some topic
       /\ store r = committed topic d
                      (saved_row s (saved_post now topicID userID content parentID state)) s.
Proof.
  intros r. subst r.
  pose proof (createTopicReply_mem now topicID userID content parentID state s) as Hrun.
  cbv zeta in Hrun.
  destruct (List.find _ (Mem.topics s)) as [topic |].
  - destruct (written_dateline _) as [d |].
    + right. exists topic, d. split; [reflexivity | apply Hrun].
    + left. apply Hrun.
  - left. apply Hrun.
Qed.

(** X4: the author is looked up after the commit: when the user service
    does not know the author, the call fails and the reply stays stored. *)
Theorem createTopicReply_unknown_author (now topicID userID : Z) (content : string)
    (parentID : Z) (state : option Z) (s : Mem.t) (topic : GroupTopic.t) (d : option Z) :
  List.find (fun x => GroupTopic.id x =? topicID) (Mem.topics s) = Some topic ->
  written_dateline (topic_update now topic) = Some d ->
  List.find (fun u => IUser.ID u =? userID) (Mem.users s) = None ->
  let r := run (St := Mem.forward)
             (createTopicReply now group topicID userID content parentID state) s in
  outcome r = Err EntityNotFoundError
  /\ Mem.posts (store r)
     = Mem.posts s ++ [saved_row s (saved_post now topicID userID content parentID state)]
  /\ GroupTopic.replies <$> List.find (fun x => GroupTopic.id x =? topicID) (Mem.topics (store r))
     = Some (GroupTopic.replies topic + 1).
Proof.
  intros Hfind Hd Huser r. subst r.
  pose proof (createTopicReply_mem now topicID userID content parentID state s) as Hrun.
  cbv zeta in Hrun. rewrite Hfind, Hd, Huser in Hrun. destruct Hrun as [-> ->].
  split; [reflexivity |]. split; [reflexivity |].
  destruct (find_topic_id _ _ _ Hfind) as [_ Hid].
  unfold committed, topics_after. cbn [Mem.topics].
  rewrite find_map_same_id, Hfind.
  - cbn. rewrite Z.eqb_refl. reflexivity.
  - intros x. destruct (GroupTopic.id x =? GroupTopic.id topic); reflexivity.
Qed.

(** X5: the ordinary path.  For a topic that is not sunk and gets no decay
    (its id is not listed, or it has no reply yet), a clock below 2^53 and an
    author the user service knows, the reply succeeds: it returns the view
    of the saved row, and the topic has one reply more and the clock reading
    as [dateline]. *)
Theorem createTopicReply_bumps (now topicID userID : Z) (content : string)
    (parentID : Z) (state : option Z) (s : Mem.t) (topic : GroupTopic.t) (u : IUser.t) :
  List.find (fun x => GroupTopic.id x =? topicID) (Mem.topics s) = Some topic ->
  GroupTopic.state topic <> ReplyState.AdminSilentTopic ->
  existsb (Z.eqb (GroupTopic.id topic)) ranking_allow_list
  && (0 <? GroupTopic.replies topic) = false ->
  Z.abs now < 2 ^ 53 ->
  List.find (fun u => IUser.ID u =? userID) (Mem.users s) = Some u ->
  let r := run (St := Mem.forward)
             (createTopicReply now group topicID userID content parentID state) s in
  let row := saved_row s (saved_post now topicID userID content parentID state) in
  outcome r = Ok (post_view row u)
  /\ store r = committed topic (Some now) row s
  /\ List.find (fun x => GroupTopic.id x =? topicID) (Mem.topics (store r))
     = Some (Mem.set_replies_dateline (GroupTopic.replies topic + 1) now topic).
Proof.
  intros Hfind Hstate Hplain Hnow Huser r row. subst r row.
  pose proof (createTopicReply_mem now topicID userID content parentID state s) as Hrun.
  cbv zeta in Hrun. rewrite Hfind, Huser in Hrun.
  assert (Hd : written_dateline (topic_update now topic) = Some (Some now)).
  { unfold written_dateline, topic_update.
    apply Z.eqb_neq in Hstate. rewrite Hstate. cbn [negb upd_dateline].
    rewrite scoredUpdateTime_unfold. cbn [Type_eqb andb]. rewrite Hplain.
    rewrite (num2Z_Z2num now Hnow). reflexivity. }
  rewrite Hd in Hrun. destruct Hrun as [-> ->].
  split; [reflexivity |]. split; [reflexivity |].
  destruct (find_topic_id _ _ _ Hfind) as [_ Hid].
  unfold committed, topics_after. cbn [Mem.topics].
  rewrite find_map_same_id, Hfind.
  - cbn. rewrite Z.eqb_refl. reflexivity.
  - intros x. destruct (GroupTopic.id x =? GroupTopic.id topic); reflexivity.
Qed.

End ReplyOnMem.

(* ------------------------------------------------------------------ *)
(** * What the read paths and the failed writes ask of a store *)
(* ------------------------------------------------------------------ *)

Section AnyStore.
Context {M : JS.MathImpl} {D : Display} {S : Type} {St : Store S}.

(** X6: rendering a thread and listing topics never ask a store to write,
    whatever the store answers. *)
Theorem read_paths_only_read (auth : IAuth) (type : Type_) (id : Z) (page : Page.t) (s : S) :
  forallb is_read (accesses (run (fetchDetail auth type id) s)) = true
  /\ forallb is_read (accesses (run (fetchTopicList auth type id page) s)) = true.
Proof.
  split.
  - unfold fetchDetail, await. cbn [bind run].
    destruct (handle (GroupTopicRepo_findOne id) s) as [[[topic |] s1] | e];
      cbn [bind run accesses forallb is_read andb]; try reflexivity.
    destruct (negb (CanViewTopicContent auth topic)); cbn [bind run accesses forallb]; [reflexivity |].
    destruct (handle (GroupPostRepo_find (GroupTopic.id topic)) s1) as [[[| top rest] s2] | e];
      reflexivity.
  - unfold fetchTopicList, await. destruct type; cbn [Type_eqb negb bind run]; [| reflexivity].
    destruct (handle (GroupTopicRepo_count _) s) as [[n s1] | e];
      cbn [bind run accesses forallb is_read andb]; [| reflexivity].
    destruct (handle (GroupTopicRepo_find _ _ _ _) s1) as [[rows s2] | e]; reflexivity.
Qed.

(** X7: a topic without any post is an error of [fetchDetail], not an empty
    thread: the message names the type and the id asked for. *)
Theorem fetchDetail_no_top_post (auth : IAuth) (type : Type_) (id : Z)
    (s s1 s2 : S) (topic : GroupTopic.t) :
  handle (GroupTopicRepo_findOne id) s = Ok (Some topic, s1) ->
  CanViewTopicContent auth topic = true ->
  handle (GroupPostRepo_find (GroupTopic.id topic)) s1 = Ok ([], s2) ->
  outcome (run (fetchDetail auth type id) s)
  = Err (UnexpectedNotFoundError
           ("top reply of topic(" ++ Type_name type ++ ") " ++ pretty id)%string).
Proof.
  intros Hfind Hview Hposts.
  unfold fetchDetail, await. cbn [bind run].
  rewrite Hfind. cbn [bind run]. rewrite Hview. cbn [negb bind run].
  rewrite Hposts. reflexivity.
Qed.

(** X8: a reply to another type of topic, or to a topic the store does not
    have, fails without a write: no post is saved, no topic updated, and the
    store is the one the call began with. *)
Theorem createTopicReply_refused (now : Z) (topicType : Type_) (topicID userID : Z)
    (content : string) (parentID : Z) (state : option Z) (s s1 : S) :
  topicType = subject \/ handle (GroupTopicRepo_findOne topicID) s = Ok (None, s1) ->
  let r := run (createTopicReply now topicType topicID userID content parentID state) s in
  outcome r
  = Err (match topicType with
         | subject => UnimplementedError "creating group reply"
         | group => EntityNotFoundError
         end)
  /\ store r = s
  /\ forallb is_read (accesses r) = true.
Proof.
  intros Hcase r. subst r.
  destruct topicType.
  - destruct Hcase as [Hcase | Hnone]; [discriminate |].
    unfold createTopicReply, transaction, await. cbn [Type_eqb negb bind run].
    rewrite Hnone. cbn. auto.
  - cbn. auto.
Qed.

End AnyStore.

(* ------------------------------------------------------------------ *)
(** * A reply and the thread rendered after it *)
(* ------------------------------------------------------------------ *)

Section ReplyThenThread.
Context {M : JS.MathImpl} {D : Display}.

(** X9: with a redaction that keeps ids, the top-level replies of a thread
    are the posts after the top post whose [related] is zero, in the order
    of the posts. *)
Theorem fetchDetail_top_level_order {S : Type} {St : Store S}
    (auth : IAuth) (type : Type_) (id : Z)
    (s s1 s2 : S) (topic : GroupTopic.t) (top : GroupPost.t) (rest : list GroupPost.t) :
  keeps_structure filterReply ->
  handle (GroupTopicRepo_findOne id) s = Ok (Some topic, s1) ->
  CanViewTopicContent auth topic = true ->
  handle (GroupPostRepo_find (GroupTopic.id topic)) s1 = Ok (top :: rest, s2) ->
  exists d,
    outcome (run (fetchDetail auth type id) s) = Ok (Some d)
    /\ map IReply.id (ITopicDetails.replies d)
       = map GroupPost.id (List.filter (fun x => GroupPost.related x =? 0) rest).
Proof.
  intros Hkeep Hfind Hview Hposts.
  rewrite (fetchDetail_visible auth type id s s1 s2 topic top rest Hfind Hview Hposts).
  eexists. split; [reflexivity |]. apply (topLevelReplies_ids Hkeep).
Qed.

Lemma subReplies_app_top (rest : list GroupPost.t) (x : GroupPost.t) :
  GroupPost.related x = 0 -> subReplies (rest ++ [x]) = subReplies rest.
Proof.
  intros Hx. unfold subReplies. rewrite List.filter_app. cbn [List.filter].
  rewrite Hx. cbn. rewrite app_nil_r. reflexivity.
Qed.

Lemma topLevelReplies_app_top (rest : list GroupPost.t) (x : GroupPost.t) :
  GroupPost.related x = 0 ->
  topLevelReplies (rest ++ [x])
  = topLevelReplies rest ++ [filterReply (toReply (subReplies rest) x)].
Proof.
  intros Hx. unfold topLevelReplies.
  rewrite (subReplies_app_top rest x Hx), List.filter_app. cbn [List.filter].
  rewrite Hx. cbn [Z.eqb]. rewrite !List.map_app. reflexivity.
Qed.

Lemma children_app (k : Z) (rest : list GroupPost.t) (x : GroupPost.t) :
  children k (rest ++ [x])
  = children k rest
    ++ (if (GroupPost.related x =? k) && negb (GroupPost.related x =? 0) then [x] else []).
Proof. unfold children. rewrite List.filter_app. reflexivity. Qed.

(** The thread of the topic on the store a committed reply leaves. *)
Lemma fetchDetail_committed (auth : IAuth) (type : Type_) (topicID : Z) (s : Mem.t)
    (topic : GroupTopic.t) (d : option Z) (row top : GroupPost.t) (rest : list GroupPost.t) :
  List.find (fun x => GroupTopic.id x =? topicID) (Mem.topics s) = Some topic ->
  GroupPost.topicID row = topicID ->
  posts_of topicID s = top :: rest ->
  CanViewTopicContent auth
    (Mem.set_replies_dateline (GroupTopic.replies topic + 1)
                              (default (GroupTopic.dateline topic) d) topic) = true ->
  exists det,
    outcome (run (St := Mem.forward) (fetchDetail auth type topicID) (committed topic d row s))
    = Ok (Some det)
    /\ ITopicDetails.text det = GroupPost.content top
    /\ ITopicDetails.replies det = topLevelReplies (rest ++ [row]).
Proof.
  intros Hfind Hrow Hposts Hview.
  destruct (find_topic_id _ _ _ Hfind) as [_ Hid].
  erewrite (fetchDetail_visible (St := Mem.forward) auth type topicID
              (committed topic d row s) _ _ _ top (rest ++ [row])).
  - eexists. split; [reflexivity |]. split; reflexivity.
  - cbn [handle Mem.forward Mem.handle_with]. unfold committed, topics_after. cbn [Mem.topics].
    rewrite find_map_same_id, Hfind.
    + cbn. rewrite Z.eqb_refl. reflexivity.
    + intros x. destruct (GroupTopic.id x =? GroupTopic.id topic); reflexivity.
  - exact Hview.
  - cbn [handle Mem.forward Mem.handle_with Mem.set_replies_dateline GroupTopic.id].
    unfold committed. cbn [Mem.posts]. rewrite Hid, List.filter_app.
    fold (posts_of topicID s). rewrite Hposts. cbn [List.filter].
    rewrite Hrow, Z.eqb_refl. reflexivity.
Qed.

(** X10: a reply to the topic itself ([parentID] zero) is, in the thread
    rendered after it, the last top-level reply; the replies before it and
    the top post are as they were. *)
Theorem reply_then_thread (auth : IAuth) (type : Type_) (now topicID userID : Z)
    (content : string) (state : option Z) (s : Mem.t)
    (topic : GroupTopic.t) (d : option Z) (top : GroupPost.t) (rest : list GroupPost.t) :
  List.find (fun x => GroupTopic.id x =? topicID) (Mem.topics s) = Some topic ->
  written_dateline (topic_update now topic) = Some d ->
  posts_of topicID s = top :: rest ->
  CanViewTopicContent auth
    (Mem.set_replies_dateline (GroupTopic.replies topic + 1)
                              (default (GroupTopic.dateline topic) d) topic) = true ->
  let s' := store (run (St := Mem.forward)
                     (createTopicReply now group topicID userID content 0 state) s) in
  let row := saved_row s (saved_post now topicID userID content 0 state) in
  exists det,
    outcome (run (St := Mem.forward) (fetchDetail auth type topicID) s') = Ok (Some det)
    /\ ITopicDetails.text det = GroupPost.content top
    /\ ITopicDetails.replies det
       = topLevelReplies rest ++ [filterReply (toReply (subReplies rest) row)].
Proof.
  intros Hfind Hd Hposts Hview s' row. subst s'.
  pose proof (createTopicReply_mem now topicID userID content 0 state s) as Hrun.
  cbv zeta in Hrun. rewrite Hfind, Hd in Hrun. destruct Hrun as [-> _].
  destruct (fetchDetail_committed auth type topicID s topic d row top rest
              Hfind eq_refl Hposts Hview) as (det & Hdet & Htext & Hreplies).
  exists det. split; [exact Hdet |]. split; [exact Htext |].
  rewrite Hreplies. apply topLevelReplies_app_top. reflexivity.
Qed.

(** X11: a reply to a reply ([parentID] not zero) adds no top-level reply;
    with a redaction that keeps ids, in the thread rendered after it the
    new post is the last sub-reply of the top-level reply whose id is
    [parentID], and is shown under no other. *)
Theorem sub_reply_then_thread (auth : IAuth) (type : Type_) (now topicID userID : Z)
    (content : string) (parentID : Z) (state : option Z) (s : Mem.t)
    (topic : GroupTopic.t) (d : option Z) (top : GroupPost.t) (rest : list GroupPost.t) :
  keeps_structure filterReply ->
  parentID <> 0 ->
  List.find (fun x => GroupTopic.id x =? topicID) (Mem.topics s) = Some topic ->
  written_dateline (topic_update now topic) = Some d ->
  posts_of topicID s = top :: rest ->
  CanViewTopicContent auth
    (Mem.set_replies_dateline (GroupTopic.replies topic + 1)
                              (default (GroupTopic.dateline topic) d) topic) = true ->
  let s' := store (run (St := Mem.forward)
                     (createTopicReply now group topicID userID content parentID state) s) in
  let row := saved_row s (saved_post now topicID userID content parentID state) in
  exists det,
    outcome (run (St := Mem.forward) (fetchDetail auth type topicID) s') = Ok (Some det)
    /\ map IReply.id (ITopicDetails.replies det)
       = map GroupPost.id (List.filter (fun x => GroupPost.related x =? 0) rest)
    /\ forall r, In r (ITopicDetails.replies det) ->
         shown_under r
         = map GroupPost.id (children (IReply.id r) rest)
           ++ (if IReply.id r =? parentID then [GroupPost.id row] else []).
Proof.
  intros Hkeep Hparent Hfind Hd Hposts Hview s' row. subst s'.
  pose proof (createTopicReply_mem now topicID userID content parentID state s) as Hrun.
  cbv zeta in Hrun. rewrite Hfind, Hd in Hrun. destruct Hrun as [-> _].
  destruct (fetchDetail_committed auth type topicID s topic d row top rest
              Hfind eq_refl Hposts Hview) as (det & Hdet & _ & Hreplies).
  exists det. split; [exact Hdet |]. rewrite Hreplies.
  assert (Hrel : GroupPost.related row = parentID) by reflexivity.
  split.
  - rewrite (topLevelReplies_ids Hkeep), List.filter_app. cbn [List.filter].
    rewrite Hrel. apply Z.eqb_neq in Hparent. rewrite Hparent, app_nil_r. reflexivity.
  - intros r Hr.
    destruct (topLevelReplies_In Hkeep _ r Hr) as (y & _ & _ & Hid & Hshown & _).
    rewrite Hshown, <- Hid, children_app, Hrel, List.map_app.
    rewrite (Z.eqb_sym parentID).
    apply Z.eqb_neq in Hparent. rewrite Hparent. cbn [negb].
    rewrite andb_true_r. destruct (IReply.id r =? parentID); reflexivity.
Qed.

End ReplyThenThread.

(* ------------------------------------------------------------------ *)
(** * The listing on the in-memory store *)
(* ------------------------------------------------------------------ *)

Section ListingOnMem.
Context {D : Display}.


Lemma In_page {A : Type} (x : A) (n k : nat) (l : list A) :
  In x (firstn n (skipn k l)) -> In x l.
Proof.
  intros Hx.
  rewrite <- (firstn_skipn k l). apply in_or_app. right.
  rewrite <- (firstn_skipn n (skipn k l)). apply in_or_app. left. exact Hx.
Qed.

Lemma insert_sorted_Permutation (d : Direction) (x : GroupTopic.t) (l : list GroupTopic.t) :
  Permutation (Mem.insert_sorted d x l) (x :: l).
Proof.
  induction l as [| y l IH]; simpl; [reflexivity |].
  destruct (Mem.in_order d _ _); [reflexivity |].
  rewrite IH. apply perm_swap.
Qed.

Lemma order_by_dateline_Permutation (d : Direction) (l : list GroupTopic.t) :
  Permutation (Mem.order_by_dateline d l) l.
Proof.
  induction l as [| x l IH]; simpl; [reflexivity |].
  rewrite insert_sorted_Permutation, IH. reflexivity.
Qed.

(** The rows of a page: the listable rows in order, without the first
    [offset], up to [limit]. *)
Lemma fetchTopicList_mem (auth : IAuth) (id : Z) (page : Page.t) (s : Mem.t) :
  0 <= default 0 (Page.offset page) ->
  0 <= default 30 (Page.limit page) ->
  run (St := Mem.forward) (fetchTopicList auth group id page) s
  = {| outcome :=
         Ok (Z.of_nat (length (listable auth id s)),
             map toITopic
               (firstn (Z.to_nat (default 30 (Page.limit page)))
                  (skipn (Z.to_nat (default 0 (Page.offset page)))
                     (Mem.order_by_dateline desc (listable auth id s)))));
       store := s;
       accesses :=
         [ GroupTopicRepo_count
             {| where_gid := id; where_display_in := ListTopicDisplays auth |};
           GroupTopicRepo_find
             {| where_gid := id; where_display_in := ListTopicDisplays auth |} desc
             (default 0 (Page.offset page)) (default 30 (Page.limit page)) ] |}.
Proof.
  intros Hoff Hlim.
  unfold fetchTopicList, await.
  cbn [Type_eqb negb bind run handle Mem.forward Mem.handle_with].
  apply Z.ltb_ge in Hoff, Hlim. rewrite Hoff, Hlim. reflexivity.
Qed.


(** X13: every topic the listing returns is a row of the container asked
    for whose [display] is one of those [ListTopicDisplays] grants the
    actor. *)
Theorem fetchTopicList_only_listable (auth : IAuth) (id : Z) (page : Page.t) (s : Mem.t)
    (total : Z) (topics : list ITopic.t) :
  outcome (run (St := Mem.forward) (fetchTopicList auth group id page) s) = Ok (total, topics) ->
  forall t, In t topics ->
    exists x, In x (Mem.topics s) /\ t = toITopic x
              /\ GroupTopic.gid x = id
              /\ In (GroupTopic.display x) (ListTopicDisplays auth).
Proof.
  unfold fetchTopicList, await.
  cbn [Type_eqb negb bind run handle Mem.forward Mem.handle_with outcome].
  destruct (_ || _); cbn [bind run outcome]; [discriminate |].
  intros E t Ht. injection E as _ <-.
  apply List.in_map_iff in Ht as (x & <- & Hx).
  apply In_page in Hx.
  apply (Permutation_in _ (order_by_dateline_Permutation desc _)) in Hx.
  apply List.filter_In in Hx as [Hx Hmatch].
  unfold Mem.matches in Hmatch. cbn [where_gid where_display_in] in Hmatch.
  apply andb_true_iff in Hmatch as [Hgid Hdisplay].
  apply Z.eqb_eq in Hgid.
  apply List.existsb_exists in Hdisplay as (dsp & Hin & Heq). apply Z.eqb_eq in Heq.
  exists x. repeat split; auto. congruence.
Qed.

(** X14: from offset zero and with a limit not below the total, the listing
    returns every listable topic of the container, each once. *)
Theorem fetchTopicList_complete (auth : IAuth) (id : Z) (page : Page.t) (s : Mem.t) :
  default 0 (Page.offset page) = 0 ->
  Z.of_nat (length (listable auth id s)) <= default 30 (Page.limit page) ->
  exists topics,
    outcome (run (St := Mem.forward) (fetchTopicList auth group id page) s)
    = Ok (Z.of_nat (length (listable auth id s)), topics)
    /\ Permutation topics (map toITopic (listable auth id s)).
Proof.
  intros Hoff Hlim.
  rewrite (fetchTopicList_mem auth id page s) by lia.
  eexists. split; [reflexivity |].
  rewrite Hoff. change (Z.to_nat 0) with 0%nat. rewrite List.skipn_0.
  rewrite List.firstn_all2.
  - apply Permutation_map, order_by_dateline_Permutation.
  - rewrite (Permutation_length (order_by_dateline_Permutation desc _)). lia.
Qed.


End ListingOnMem.

(* ------------------------------------------------------------------ *)
(** * The infobox readers *)
(* ------------------------------------------------------------------ *)

Section InfoboxReaders.
Import JS JSParse.

Lemma find_first {A : Type} (f : A -> bool) (before after : list A) (x : A) :
  (forall v, In v before -> f v = false) -> f x = true ->
  List.find f (before ++ x :: after) = Some x.
Proof.
  intros Hbefore Hx. induction before as [| v before IH]; simpl.
  - rewrite Hx. reflexivity.
  - rewrite (Hbefore v) by (left; reflexivity).
    apply IH. intros v' Hv'. apply Hbefore. right. exact Hv'.
Qed.

Lemma find_absent {A : Type} (f : A -> bool) (l : list A) :
  (forall v, In v l -> f v = false) -> List.find f l = None.
Proof.
  intros Hl. destruct (List.find f l) as [v |] eqn:E; [| reflexivity].
  apply List.find_some in E as [Hin Hv]. rewrite (Hl v Hin) in Hv. discriminate.
Qed.

(** X16: the Chinese name is the value of the first item whose key is 中文名,
    and the empty string when that item has no value, whatever items
    follow; it is the empty string when no item has the key. *)
Theorem extractNameCN_first_item (before after : list Wiki.item) (x : Wiki.item) :
  (forall v, In v before -> Wiki.key v <> "中文名"%string) ->
  Wiki.key x = "中文名"%string ->
  extractNameCN (Wiki.mk (before ++ x :: after)) = default EmptyString (Wiki.value x)
  /\ extractNameCN (Wiki.mk before) = EmptyString.
Proof.
  intros Hbefore Hx. unfold extractNameCN. cbn [Wiki.data].
  assert (Hno : forall v, In v before -> String.eqb (Wiki.key v) "中文名" = false)
    by (intros v Hv; apply String.eqb_neq, Hbefore, Hv).
  rewrite (find_first _ before after x Hno) by (apply String.eqb_eq, Hx).
  rewrite (find_absent _ before Hno). split; reflexivity.
Qed.

Lemma or_zero_number (x : number) :
  isNaN (or_zero x) = false /\ or_zero x <> S754_zero true.
Proof. destruct x as [s | s | | s m e]; cbn; split; (reflexivity || discriminate). Qed.

(** X17: the episode count is never NaN and never the negative zero, whatever
    the infobox holds. *)
Theorem extractEpisode_is_a_count (w : Wiki.t) :
  isNaN (extractEpisode w) = false /\ extractEpisode w <> S754_zero true.
Proof.
  unfold extractEpisode.
  destruct (List.find _ (Wiki.data w)) as [v |]; [| split; [reflexivity | discriminate]].
  destruct (Wiki.value v) as [[| c s] |];
    try (split; [reflexivity | discriminate]).
  apply or_zero_number.
Qed.

(** X18: an infobox with no item keyed 话数 or 集数 counts zero episodes. *)
Theorem extractEpisode_no_item (w : Wiki.t) :
  (forall v, In v (Wiki.data w) ->
             Wiki.key v <> "话数"%string /\ Wiki.key v <> "集数"%string) ->
  extractEpisode w = Z2num 0.
Proof.
  intros Hno. unfold extractEpisode. rewrite find_absent; [reflexivity |].
  intros v Hv. destruct (Hno v Hv) as [H1 H2]. cbn [existsb].
  apply String.eqb_neq in H1, H2. rewrite H1, H2. reflexivity.
Qed.

(** ** The numeral of [pretty] read back *)

Lemma append_cons (c : ascii) (s t : string) :
  (String c s ++ t)%string = String c (s ++ t)%string.
Proof. reflexivity. Qed.

Lemma append_assoc (s t u : string) : ((s ++ t) ++ u)%string = (s ++ (t ++ u))%string.
Proof.
  induction s as [| c s IH]; [reflexivity |]. rewrite !append_cons, IH. reflexivity.
Qed.

Lemma all_decimal_app (s t : string) :
  all_decimal (s ++ t) = all_decimal s && all_decimal t.
Proof.
  induction s as [| c s IH]; [reflexivity |].
  rewrite append_cons. cbn [all_decimal]. rewrite IH, andb_assoc. reflexivity.
Qed.

Lemma is_decimal_code (c : ascii) : is_decimal c = true -> 48 <= code c <= 57.
Proof. unfold is_decimal. intros H. apply andb_true_iff in H as [H1 H2]. lia. Qed.

Lemma pretty_N_char_digit (d : N) :
  (d < 10)%N ->
  radix_digit 10 (pretty_N_char d) = Some (Z.of_N d)
  /\ is_decimal (pretty_N_char d) = true.
Proof.
  intros Hd.
  assert (d = 0 \/ d = 1 \/ d = 2 \/ d = 3 \/ d = 4 \/ d = 5 \/ d = 6 \/ d = 7 \/ d = 8
          \/ d = 9)%N as Hcases by lia.
  repeat (destruct Hcases as [-> | Hcases]; [split; reflexivity |]).
  subst d. split; reflexivity.
Qed.

(** The digits [pretty_N_go] puts before [s]: none for zero, some for a
    positive number, all decimal, and read back as the number. *)
Lemma pretty_N_go_digits (x : N) :
  forall s, exists ds k,
    pretty_N_go x s = (ds ++ s)%string
    /\ 0 <= k
    /\ all_decimal ds = true
    /\ ((0 < x)%N -> ds <> EmptyString)
    /\ (forall rest acc,
          parse_digits 10 (ds ++ rest) acc
          = parse_digits 10 rest
              (if (x =? 0)%N then acc else Some (default 0 acc * 10 ^ k + Z.of_N x))).
Proof.
  induction (N.lt_wf_0 x) as [x _ IH]. intros s.
  destruct (N.eq_dec x 0%N) as [-> | Hx].
  - exists EmptyString, 0. rewrite pretty_N_go_0.
    split; [reflexivity | split; [lia | split; [reflexivity | split]]].
    + intros H. lia.
    + intros rest acc. reflexivity.
  - assert (Hpos : (0 < x)%N) by lia.
    rewrite pretty_N_go_step by exact Hpos.
    destruct (IH (x / 10)%N (N.div_lt x 10 Hpos eq_refl)
                 (String (pretty_N_char (x mod 10)) s))
      as (ds & k & Hgo & Hk & Hall & _ & Hparse).
    destruct (pretty_N_char_digit (x mod 10)%N) as [Hdigit Hdec];
      [apply N.mod_lt; lia |].
    pose proof (N.div_mod x 10 ltac:(lia)) as Hdm.
    exists (ds ++ String (pretty_N_char (x mod 10)) EmptyString)%string,
           (if (x / 10 =? 0)%N then 1 else k + 1).
    split; [| split; [| split; [| split]]].
    + rewrite Hgo, append_assoc. reflexivity.
    + destruct (x / 10 =? 0)%N; lia.
    + rewrite all_decimal_app, Hall. cbn [all_decimal]. rewrite Hdec. reflexivity.
    + intros _. destruct ds; discriminate.
    + intros rest acc. rewrite append_assoc, append_cons.
      change (EmptyString ++ rest)%string with rest.
      rewrite Hparse. cbn [parse_digits]. rewrite Hdigit.
      apply N.eqb_neq in Hx. rewrite Hx. f_equal. f_equal.
      destruct (N.eqb_spec (x / 10)%N 0%N) as [Hq | Hq].
      * rewrite Hq in Hdm. lia.
      * cbn [default]. unfold id. rewrite Z.pow_add_r by lia.
        change (10 ^ 1) with 10.
        assert (Hx' : Z.of_N x = 10 * Z.of_N (x / 10) + Z.of_N (x mod 10)) by lia.
        rewrite Hx'. ring.
Qed.

(** The numeral of [pretty]: some decimal digits, read back as the number. *)
Lemma pretty_N_digits (n : N) :
  exists c ds,
    pretty n = String c ds
    /\ is_decimal c = true /\ all_decimal ds = true
    /\ forall rest, parse_digits 10 (pretty n ++ rest) None
                    = parse_digits 10 rest (Some (Z.of_N n)).
Proof.
  unfold pretty, pretty_N. destruct (decide (n = 0%N)) as [-> | Hn].
  - exists "0"%char, EmptyString. repeat split; reflexivity.
  - destruct (pretty_N_go_digits n EmptyString) as (ds & k & Hgo & Hk & Hall & Hne & Hparse).
    assert (Hds : pretty_N_go n EmptyString = ds).
    { rewrite Hgo. clear. induction ds as [| c ds IH]; [reflexivity |].
      rewrite append_cons, IH. reflexivity. }
    rewrite Hds. destruct ds as [| c ds]; [exfalso; apply Hne; [lia | reflexivity] |].
    cbn [all_decimal] in Hall. apply andb_true_iff in Hall as [Hc Hall].
    exists c, ds. split; [reflexivity | split; [exact Hc | split; [exact Hall |]]].
    intros rest. rewrite Hparse. apply N.eqb_neq in Hn. rewrite Hn.
    change (default 0 None) with 0. rewrite Z.mul_0_l, Z.add_0_l. reflexivity.
Qed.

Lemma trimStart_decimal (c : ascii) (s : string) :
  is_decimal c = true -> trimStart (String c s) = String c s.
Proof.
  intros Hc. apply is_decimal_code in Hc. cbn [trimStart].
  assert (H1 : space1 c = false).
  { unfold space1. apply orb_false_iff. split; [apply andb_false_iff | apply Z.eqb_neq]; lia. }
  rewrite H1. destruct s as [| c2 s]; [reflexivity |].
  assert (H2 : space2 c c2 = false).
  { unfold space2. apply andb_false_iff. left. apply Z.eqb_neq. lia. }
  rewrite H2. destruct s as [| c3 s]; [reflexivity |].
  assert (H3 : space3 c c2 c3 = false).
  { unfold space3.
    assert (E1 : (code c =? 225) = false) by (apply Z.eqb_neq; lia).
    assert (E2 : (code c =? 226) = false) by (apply Z.eqb_neq; lia).
    assert (E3 : (code c =? 227) = false) by (apply Z.eqb_neq; lia).
    assert (E4 : (code c =? 239) = false) by (apply Z.eqb_neq; lia).
    cbv zeta. rewrite E1, E2, E3, E4. reflexivity. }
  rewrite H3. reflexivity.
Qed.

Lemma parse_digits_ends (rest : string) (acc : option Z) :
  ends_numeral rest = true -> parse_digits 10 rest acc = acc.
Proof.
  destruct rest as [| c rest]; [reflexivity |]. cbn [ends_numeral parse_digits].
  intros H. apply andb_true_iff in H as [H _]. apply negb_true_iff in H.
  unfold radix_digit, digit_value. unfold is_decimal in H. cbv zeta. rewrite H.
  destruct ((97 <=? code c) && (code c <=? 122)) eqn:E1.
  - apply andb_true_iff in E1 as [E1 _]. apply Z.leb_le in E1.
    replace (code c - 87 <? 10) with false by (symmetry; apply Z.ltb_ge; lia).
    reflexivity.
  - destruct ((65 <=? code c) && (code c <=? 90)) eqn:E2; [| reflexivity].
    apply andb_true_iff in E2 as [E2 _]. apply Z.leb_le in E2.
    replace (code c - 55 <? 10) with false by (symmetry; apply Z.ltb_ge; lia).
    reflexivity.
Qed.

Lemma take_sign_decimal (c : ascii) (s : string) :
  is_decimal c = true -> take_sign (String c s) = (false, String c s).
Proof.
  intros Hc. apply is_decimal_code in Hc. unfold take_sign.
  replace (code c =? 45) with false by (symmetry; apply Z.eqb_neq; lia).
  replace (code c =? 43) with false by (symmetry; apply Z.eqb_neq; lia).
  reflexivity.
Qed.

Lemma take_prefix_decimal (c : ascii) (ds rest : string) :
  all_decimal ds = true -> ends_numeral rest = true ->
  take_prefix (String c (ds ++ rest)) = (10, String c (ds ++ rest)).
Proof.
  intros Hds Hrest. unfold take_prefix.
  destruct ds as [| c2 ds].
  - change (EmptyString ++ rest)%string with rest.
    destruct rest as [| c2 rest]; [reflexivity |].
    cbn [ends_numeral] in Hrest. apply andb_true_iff in Hrest as [_ Hx].
    apply negb_true_iff in Hx. rewrite Hx, andb_false_r. reflexivity.
  - rewrite append_cons. cbn [all_decimal] in Hds.
    apply andb_true_iff in Hds as [Hc2 _]. apply is_decimal_code in Hc2.
    replace (code c2 =? 120) with false by (symmetry; apply Z.eqb_neq; lia).
    replace (code c2 =? 88) with false by (symmetry; apply Z.eqb_neq; lia).
    rewrite andb_false_r. reflexivity.
Qed.

(** [parseInt] reads a decimal numeral back, whatever ends it. *)
Lemma parseInt_pretty (n : N) (rest : string) :
  ends_numeral rest = true ->
  parseInt (pretty n ++ rest)
  = if (n =? 0)%N then S754_zero false else Z2num (Z.of_N n).
Proof.
  intros Hrest.
  destruct (pretty_N_digits n) as (c & ds & Hpretty & Hc & Hds & Hparse).
  unfold parseInt. specialize (Hparse rest). rewrite Hpretty in *.
  rewrite append_cons in *.
  rewrite (trimStart_decimal c _ Hc), (take_sign_decimal c _ Hc),
    (take_prefix_decimal c ds rest Hds Hrest), Hparse,
    (parse_digits_ends rest _ Hrest).
  destruct n as [| p]; reflexivity.
Qed.

Lemma or_zero_Z2num (n : N) :
  (n < 2 ^ 53)%N ->
  or_zero (if (n =? 0)%N then S754_zero false else Z2num (Z.of_N n)) = Z2num (Z.of_N n).
Proof.
  intros Hn. destruct n as [| p]; [reflexivity |]. cbn [N.eqb Z.of_N].
  destruct (binary_round_integer false p) as (m' & e & Hround & _); [lia |].
  unfold Z2num, binary_normalize. rewrite Hround. reflexivity.
Qed.

Lemma extractEpisode_digits
    (before after : list Wiki.item) (k : string) (n : N) (rest : string) :
  (forall v, In v before ->
             Wiki.key v <> "话数"%string /\ Wiki.key v <> "集数"%string) ->
  k = "话数"%string \/ k = "集数"%string ->
  (n < 2 ^ 53)%N ->
  ends_numeral rest = true ->
  extractEpisode
    (Wiki.mk (before ++ Wiki.mk_item k (Some (pretty n ++ rest)%string) :: after))
  = Z2num (Z.of_N n).
Proof.
  intros Hbefore Hk Hn Hrest. unfold extractEpisode. cbn [Wiki.data].
  rewrite (find_first _ before after (Wiki.mk_item k (Some (pretty n ++ rest)%string))).
  - cbn [Wiki.value]. rewrite (parseInt_pretty n rest Hrest), (or_zero_Z2num n Hn).
    destruct (pretty_N_digits n) as (c & ds & Hpretty & _).
    rewrite Hpretty, append_cons. reflexivity.
  - intros v Hv. destruct (Hbefore v Hv) as [H1 H2]. cbn [existsb].
    apply String.eqb_neq in H1, H2. rewrite H1, H2. reflexivity.
  - cbn [Wiki.key existsb]. destruct Hk as [-> | ->].
    + rewrite String.eqb_refl. reflexivity.
    + rewrite String.eqb_refl, orb_true_r. reflexivity.
Qed.

(** X19: an episode count written in decimal, with any text after it that
    does not go on with a digit (nor [x] after the digits), is read back as
    that count: the first item keyed 话数 or 集数 decides, whatever follows. *)
Theorem extractEpisode_reads_decimal
    (before after : list Wiki.item) (k : string) (n : N) (rest : string) :
  (forall v, In v before ->
             Wiki.key v <> "话数"%string /\ Wiki.key v <> "集数"%string) ->
  k = "话数"%string \/ k = "集数"%string ->
  (n < 2 ^ 53)%N ->
  ends_numeral rest = true ->
  extractEpisode
    (Wiki.mk (before ++ Wiki.mk_item k (Some (pretty n ++ rest)%string) :: after))
  = Z2num (Z.of_N n).
Proof. apply extractEpisode_digits. Qed.

End InfoboxReaders.

(* ------------------------------------------------------------------ *)
(** * The platforms of a subject type *)
(* ------------------------------------------------------------------ *)

Section PlatformFacts.
Context {P : Platforms}.

Lemma insert_by_id_Permutation (x : Platform) (l : list Platform) :
  Permutation (x :: l) (insert_by_id x l).
Proof.
  induction l as [| y l IH]; cbn [insert_by_id]; [reflexivity |].
  destruct (Platform_id x - Platform_id y <=? 0); [reflexivity |].
  rewrite perm_swap. apply perm_skip, IH.
Qed.

Lemma sort_by_id_Permutation (l : list Platform) : Permutation l (sort_by_id l).
Proof.
  induction l as [| x l IH]; cbn [sort_by_id fold_right]; [reflexivity |].
  rewrite <- insert_by_id_Permutation. apply perm_skip, IH.
Qed.

Lemma insert_by_id_sorted (x : Platform) (l : list Platform) :
  StronglySorted id_le l -> StronglySorted id_le (insert_by_id x l).
Proof.
  induction 1 as [| y l Hl IH Hy]; cbn [insert_by_id].
  - constructor; constructor.
  - destruct (Z.leb_spec (Platform_id x - Platform_id y) 0) as [Hle | Hgt].
    + constructor; [constructor; assumption |].
      constructor; [unfold id_le; lia |].
      eapply List.Forall_impl; [| exact Hy]. unfold id_le. intros z Hz. lia.
    + constructor; [exact IH |].
      eapply Permutation_Forall; [apply insert_by_id_Permutation |].
      constructor; [unfold id_le; lia | exact Hy].
Qed.

Lemma sort_by_id_sorted (l : list Platform) : StronglySorted id_le (sort_by_id l).
Proof.
  induction l as [| x l IH]; cbn [sort_by_id fold_right]; [constructor |].
  apply insert_by_id_sorted, IH.
Qed.

Lemma insert_by_id_filter (i : Z) (x : Platform) (l : list Platform) :
  List.filter (fun p => Platform_id p =? i) (insert_by_id x l)
  = List.filter (fun p => Platform_id p =? i) (x :: l).
Proof.
  induction l as [| y l IH]; cbn [insert_by_id]; [reflexivity |].
  destruct (Z.leb_spec (Platform_id x - Platform_id y) 0) as [Hle | Hgt]; [reflexivity |].
  cbn [List.filter] in *. rewrite IH.
  destruct (Z.eqb_spec (Platform_id x) i) as [Hx | Hx];
    destruct (Z.eqb_spec (Platform_id y) i) as [Hy | Hy]; try reflexivity.
  exfalso. lia.
Qed.

Lemma sort_by_id_filter (i : Z) (l : list Platform) :
  List.filter (fun p => Platform_id p =? i) (sort_by_id l)
  = List.filter (fun p => Platform_id p =? i) l.
Proof.
  induction l as [| x l IH]; cbn [sort_by_id fold_right]; [reflexivity |].
  rewrite insert_by_id_filter. cbn [List.filter]. fold (sort_by_id l).
  rewrite IH. reflexivity.
Qed.

(** X20: the platforms of a type come in ascending order of [id], and those
    of one [id] in the order of the table. *)
Theorem platforms_sorted_by_id (typeID : Z) :
  StronglySorted id_le (platforms typeID)
  /\ forall i, List.filter (fun p => Platform_id p =? i) (platforms typeID)
               = List.filter (fun p => Platform_id p =? i)
                             (map snd (default [] (platform typeID))).
Proof.
  unfold platforms. destruct (platform typeID) as [s |]; cbn [default].
  - split; [apply sort_by_id_sorted | intros i; apply sort_by_id_filter].
  - split; [constructor | reflexivity].
Qed.

(** X21: the platforms of a type are the values of its table, each as often
    as the table has it. *)
Theorem platforms_are_the_table (typeID : Z) (s : list (Z * Platform)) :
  platform typeID = Some s -> Permutation (map snd s) (platforms typeID).
Proof.
  intros Hs. unfold platforms. rewrite Hs. apply sort_by_id_Permutation.
Qed.

(** X22: a platform found by its key is one of the platforms listed for the
    type. *)
Theorem platformString_listed (typeID platformID : Z) (p : Platform) :
  platformString typeID platformID = Some p -> In p (platforms typeID).
Proof.
  unfold platformString, platforms. destruct (platform typeID) as [s |]; [| discriminate].
  destruct (List.find _ s) as [e |] eqn:E; [| discriminate].
  cbn. intros [= <-]. apply List.find_some in E as [Hin _].
  eapply Permutation_in; [apply sort_by_id_Permutation |].
  apply in_map, Hin.
Qed.

End PlatformFacts.

(* ------------------------------------------------------------------ *)
(** * [edit] *)
(* ------------------------------------------------------------------ *)

Section EditAnyStore.
Context {W : WikiLib} {S : Type} {St : SubjectStore S}.
Variables (subjectID : Z) (name infobox : string) (platform : Z).
Variables (summary commitMessage : string) (date : option string) (userID now : Z).

Lemma SandBox_has (id : Z) : existsb (Z.eqb id) SandBox = true <-> In id SandBox.
Proof.
  rewrite existsb_exists. split.
  - intros (x & Hin & Hx). apply Z.eqb_eq in Hx. subst x. exact Hin.
  - intros Hin. exists id. split; [exact Hin | apply Z.eqb_refl].
Qed.

Lemma etransaction_atomic {B : Type} (body : EditProg B) (s : S) (e : EditError) :
  edit_outcome (erun (etransaction body) s) = Failed e ->
  edit_store (erun (etransaction body) s) = s.
Proof.
  cbn [etransaction erun]. destruct (edit_outcome (erun body s)) as [x | e'].
  - cbn. discriminate.
  - reflexivity.
Qed.

(** X23: outside the sandbox [edit] returns at once: no request is made and
    the store is as it was. *)
Theorem edit_outside_sandbox (s : S) :
  ~ In subjectID SandBox ->
  erun (edit subjectID name infobox platform summary commitMessage date userID
                  now) s = {| edit_outcome := Done tt; edit_store := s; edit_accesses := [] |}.
Proof.
  intros Hout. unfold edit.
  destruct (existsb (Z.eqb subjectID) SandBox) eqn:E; [| reflexivity].
  exfalso. apply Hout, SandBox_has, E.
Qed.

(** X24: an infobox the wiki parser rejects is refused before the store is
    touched; the error carries the parser's message, and nothing more when
    the line is unknown. *)
Theorem edit_invalid_infobox (s : S) (message : string) (line : option string)
    (lino : option Z) :
  In subjectID SandBox ->
  wiki infobox = WikiSyntaxError message line lino ->
  erun (edit subjectID name infobox platform summary commitMessage date userID
                  now) s
  = {| edit_outcome :=
         Failed (InvalidWikiSyntaxError (message ++ error_location line lino)%string);
       edit_store := s; edit_accesses := [] |}
  /\ error_location None lino = EmptyString.
Proof.
  intros Hin Hwiki. unfold edit.
  apply SandBox_has in Hin. rewrite Hin, Hwiki. split; reflexivity.
Qed.

(** X25: when the subject is not found, [edit] fails after that one request
    and the transaction leaves the store as it was. *)
Theorem edit_missing_subject (s s' : S) (w : Wiki.t) :
  In subjectID SandBox ->
  wiki infobox = parsed w ->
  subject_handle (SubjectRepo_findOneBy subjectID) s = Done (None, s') ->
  erun (edit subjectID name infobox platform summary commitMessage date userID
                  now) s
  = {| edit_outcome := Failed SubjectNotFoundError; edit_store := s;
       edit_accesses := [SubjectRepo_findOneBy subjectID] |}.
Proof.
  intros Hin Hwiki Hfind. unfold edit.
  apply SandBox_has in Hin. rewrite Hin, Hwiki.
  cbn [negb etransaction erun eawait ebind]. rewrite Hfind. reflexivity.
Qed.

(** X26: [edit] is all or nothing on every store: when it fails, the store is
    as it was. *)
Theorem edit_all_or_nothing (s : S) (e : EditError) :
  edit_outcome (erun (edit subjectID name infobox platform summary commitMessage date userID
                  now) s) = Failed e -> edit_store (erun (edit subjectID name infobox platform summary commitMessage date userID
                  now) s) = s.
Proof.
  unfold edit. destruct (negb _); [discriminate |].
  destruct (wiki infobox) as [w | message line lino | error]; try reflexivity.
  apply etransaction_atomic.
Qed.

(** X27: every request [edit] makes names the subject that is edited. *)
Theorem edit_touches_one_subject (s : S) :
  Forall (fun r => request_subject r = subjectID) (edit_accesses (erun (edit subjectID name infobox platform summary commitMessage date userID
                  now) s)).
Proof.
  unfold edit. destruct (negb _); [constructor |].
  destruct (wiki infobox) as [w | message line lino | error]; try constructor.
  cbn [etransaction erun eawait ebind].
  destruct (subject_handle (SubjectRepo_findOneBy subjectID) s) as [[found s1] | e];
    [| cbn; repeat constructor].
  destruct found as [x |]; [| cbn; repeat constructor].
  cbn [erun ebind eawait]. step_handle.
  cbn [erun ebind eawait]. step_handle.
  cbn [erun ebind eawait]. step_handle.
  cbn. repeat constructor.
Qed.

End EditAnyStore.

(* ------------------------------------------------------------------ *)
(** * [edit] on the tables in memory *)
(* ------------------------------------------------------------------ *)

Section EditOnMem.
Context {W : WikiLib}.
Variables (subjectID : Z) (name infobox : string) (platform : Z).
Variables (summary commitMessage : string) (date : option string) (userID now : Z).
Existing Instance SubjectMem.store.

Lemma edit_mem_success (s : SubjectMem.t) (w : Wiki.t) (x : Subject.t) (eps : Z) :
  In subjectID SandBox ->
  wiki infobox = parsed w ->
  List.find (fun y => Subject.id y =? subjectID) (SubjectMem.subjects s) = Some x ->
  Mem.num2Z (extractEpisode w) = Some eps ->
  erun (edit subjectID name infobox platform summary commitMessage date userID now) s
  = {| edit_outcome := Done tt;
       edit_store :=
         edited subjectID (edit_update name infobox platform summary now w) eps
                (edit_rev subjectID name infobox platform summary commitMessage userID
                          now w x)
                (default (extractDate w) date) s;
       edit_accesses :=
         [SubjectRepo_findOneBy subjectID;
          SubjectRevRepo_insert
            (edit_rev subjectID name infobox platform summary commitMessage userID now
                      w x);
          SubjectRepo_update subjectID (edit_update name infobox platform summary now w);
          SubjectFieldRepo_update subjectID (default (extractDate w) date)] |}.
Proof.
  intros Hin Hwiki Hfind Heps. unfold edit.
  apply SandBox_has in Hin. rewrite Hin, Hwiki.
  cbn [negb etransaction erun eawait ebind subject_handle SubjectMem.store
         SubjectMem.handle].
  rewrite Hfind.
  cbn [erun eawait ebind subject_handle SubjectMem.store SubjectMem.handle
         SubjectMem.subjects SubjectMem.revs SubjectMem.fields su_fieldEps
         edit_outcome edit_store edit_accesses].
  rewrite Heps. reflexivity.
Qed.

Lemma edit_mem_cases (s : SubjectMem.t) :
  edit_store (erun (edit subjectID name infobox platform summary commitMessage date
                         userID now) s) = s
  \/ exists w x eps,
       List.find (fun y => Subject.id y =? subjectID) (SubjectMem.subjects s) = Some x
       /\ edit_store (erun (edit subjectID name infobox platform summary commitMessage
                                 date userID now) s)
          = edited subjectID (edit_update name infobox platform summary now w) eps
                   (edit_rev subjectID name infobox platform summary commitMessage
                             userID now w x)
                   (default (extractDate w) date) s.
Proof.
  destruct (existsb (Z.eqb subjectID) SandBox) eqn:Hin.
  - destruct (wiki infobox) as [w | message line lino | error] eqn:Hwiki;
      try (left; unfold edit; rewrite Hin, Hwiki; reflexivity).
    destruct (List.find (fun y => Subject.id y =? subjectID) (SubjectMem.subjects s))
      as [x |] eqn:Hfind.
    + destruct (Mem.num2Z (extractEpisode w)) as [eps |] eqn:Heps.
      * right. exists w, x, eps. split; [reflexivity |].
        rewrite (edit_mem_success s w x eps); [reflexivity | | | |]; try assumption.
        apply SandBox_has, Hin.
      * left. unfold edit. rewrite Hin, Hwiki.
        cbn [negb etransaction erun eawait ebind subject_handle SubjectMem.store
               SubjectMem.handle].
        rewrite Hfind.
        cbn [erun eawait ebind subject_handle SubjectMem.store SubjectMem.handle
               SubjectMem.subjects SubjectMem.revs SubjectMem.fields su_fieldEps
               edit_outcome edit_store edit_accesses].
        rewrite Heps. reflexivity.
    + left. unfold edit. rewrite Hin, Hwiki.
      cbn [negb etransaction erun eawait ebind subject_handle SubjectMem.store
             SubjectMem.handle].
      rewrite Hfind. reflexivity.
  - left. unfold edit. rewrite Hin. reflexivity.
Qed.

Lemma find_map_subject (g : Subject.t -> Subject.t) (id : Z) (l : list Subject.t) :
  (forall x, Subject.id (g x) = Subject.id x) ->
  List.find (fun x => Subject.id x =? id) (map g l)
  = g <$> List.find (fun x => Subject.id x =? id) l.
Proof.
  intros Hg. induction l as [| a l IH]; simpl; [reflexivity |].
  rewrite Hg. destruct (Subject.id a =? id); [reflexivity | exact IH].
Qed.

(** X28: the history only grows: an edit leaves the revisions there were and
    adds at most one, of the subject edited and by the user who edits. *)
Theorem edit_appends_history (s : SubjectMem.t) :
  exists l,
    SubjectMem.revs
      (edit_store (erun (edit subjectID name infobox platform summary commitMessage
                              date userID now) s))
    = SubjectMem.revs s ++ l
    /\ (length l <= 1)%nat
    /\ Forall (fun rev => SubjectRev.subjectID rev = subjectID
                          /\ SubjectRev.creatorID rev = userID) l.
Proof.
  destruct (edit_mem_cases s) as [-> | (w & x & eps & _ & ->)].
  - exists []. rewrite app_nil_r. split; [reflexivity | split; [cbn; lia | constructor]].
  - eexists [_]. split; [reflexivity | split; [cbn; lia |]].
    constructor; [split; reflexivity | constructor].
Qed.

(** X29: an edit leaves the rows of every other subject as they were, and no
    row changes its id or its type. *)
Theorem edit_keeps_other_subjects (s : SubjectMem.t) :
  let s' := edit_store (erun (edit subjectID name infobox platform summary
                                   commitMessage date userID now) s) in
  other_subjects subjectID s' = other_subjects subjectID s
  /\ map Subject.id (SubjectMem.subjects s') = map Subject.id (SubjectMem.subjects s)
  /\ map Subject.typeID (SubjectMem.subjects s')
     = map Subject.typeID (SubjectMem.subjects s).
Proof.
  cbv zeta. destruct (edit_mem_cases s) as [-> | (w & x & eps & _ & ->)].
  - split; [| split]; reflexivity.
  - unfold other_subjects, edited. cbn [SubjectMem.subjects]. rewrite !map_map.
    split; [| split].
    + induction (SubjectMem.subjects s) as [| y l IH]; [reflexivity |].
      cbn [map List.filter]. destruct (Subject.id y =? subjectID) eqn:E.
      * cbn [SubjectMem.apply_update Subject.id]. rewrite E. exact IH.
      * rewrite E. cbn [negb]. rewrite IH. reflexivity.
    + apply map_ext. intros y. destruct (Subject.id y =? subjectID); reflexivity.
    + apply map_ext. intros y. destruct (Subject.id y =? subjectID); reflexivity.
Qed.

(** X30: the episode count written in the infobox is the one stored: when
    the first item keyed 话数 or 集数 holds a decimal numeral, an edit of a
    subject that exists succeeds and the row then has that count, with the
    Chinese name of the infobox and the type it had. *)
Theorem edit_stores_episode_count
    (s : SubjectMem.t) (x : Subject.t) (before after : list Wiki.item) (k : string)
    (n : N) (rest : string) :
  In subjectID SandBox ->
  wiki infobox
  = parsed (Wiki.mk (before ++ Wiki.mk_item k (Some (pretty n ++ rest)%string) :: after)) ->
  (forall v, In v before ->
             Wiki.key v <> "话数"%string /\ Wiki.key v <> "集数"%string) ->
  k = "话数"%string \/ k = "集数"%string ->
  (n < 2 ^ 53)%N ->
  ends_numeral rest = true ->
  List.find (fun y => Subject.id y =? subjectID) (SubjectMem.subjects s) = Some x ->
  let r := erun (edit subjectID name infobox platform summary commitMessage date
                      userID now) s in
  edit_outcome r = Done tt
  /\ exists x',
       List.find (fun y => Subject.id y =? subjectID) (SubjectMem.subjects (edit_store r))
       = Some x'
       /\ Subject.fieldEps x' = Z.of_N n
       /\ Subject.nameCN x'
          = extractNameCN
              (Wiki.mk (before ++ Wiki.mk_item k (Some (pretty n ++ rest)%string) :: after))
       /\ Subject.typeID x' = Subject.typeID x
       /\ Subject.name x' = name.
Proof.
  intros Hin Hwiki Hbefore Hk Hn Hrest Hfind. cbv zeta.
  rewrite (edit_mem_success s _ x (Z.of_N n) Hin Hwiki Hfind).
  - cbn [edit_outcome edit_store]. split; [reflexivity |].
    unfold edited. cbn [SubjectMem.subjects].
    rewrite find_map_subject, Hfind.
    + cbn [fmap option_fmap option_map]. apply List.find_some in Hfind as [_ Hx].
      rewrite Hx. eexists. split; [reflexivity |].
      split; [| split; [| split]]; reflexivity.
    + intros y. destruct (Subject.id y =? subjectID); reflexivity.
  - rewrite (extractEpisode_digits before after k n rest Hbefore Hk Hn Hrest).
    apply num2Z_Z2num. lia.
Qed.

End EditOnMem.

(* ------------------------------------------------------------------ *)
(** * The further properties on the example data *)
(* ------------------------------------------------------------------ *)

Section FurtherWitnesses.

Lemma forum_counted : replies_counted Forum.db.
Proof. intros t [<- | [<- | []]]; reflexivity. Qed.

Lemma createTopicReply_keeps_count_witness :
  replies_counted
    (store (run (St := Mem.forward)
              (createTopicReply (M := PowRef.ref_math) 5000 group 30 8 "hello" 0 None)
              Forum.db)).
Proof.
  apply (createTopicReply_keeps_count (M := PowRef.ref_math) 5000 30 8 "hello" 0 None
           Forum.db).
  exact forum_counted.
Defined.

Lemma createTopicReply_unknown_author_witness :
  let r := run (St := Mem.forward)
             (createTopicReply (M := PowRef.ref_math) 5000 group 30 99 "hello" 0 None)
             Forum.db in
  outcome r = Err EntityNotFoundError
  /\ Mem.posts (store r)
     = Mem.posts Forum.db
       ++ [saved_row Forum.db (saved_post 5000 30 99 "hello" 0 None)]
  /\ GroupTopic.replies <$> List.find (fun x => GroupTopic.id x =? 30) (Mem.topics (store r))
     = Some 3.
Proof.
  apply (createTopicReply_unknown_author (M := PowRef.ref_math) 5000 30 99 "hello" 0 None
           Forum.db Forum.talk (Some 5000)).
  - reflexivity.
  - vm_compute. reflexivity.
  - reflexivity.
Defined.

Lemma createTopicReply_bumps_witness :
  let r := run (St := Mem.forward)
             (createTopicReply (M := PowRef.ref_math) 5000 group 30 8 "hello" 0 None)
             Forum.db in
  let row := saved_row Forum.db (saved_post 5000 30 8 "hello" 0 None) in
  outcome r = Ok (post_view row (Examples.user 8 "bob"))
  /\ store r = committed Forum.talk (Some 5000) row Forum.db
  /\ List.find (fun x => GroupTopic.id x =? 30) (Mem.topics (store r))
     = Some (Mem.set_replies_dateline 3 5000 Forum.talk).
Proof.
  apply (createTopicReply_bumps (M := PowRef.ref_math) 5000 30 8 "hello" 0 None
           Forum.db Forum.talk (Examples.user 8 "bob")).
  - reflexivity.
  - vm_compute. discriminate.
  - reflexivity.
  - vm_compute. reflexivity.
  - reflexivity.
Defined.

Lemma fetchDetail_no_top_post_witness :
  outcome (run (St := Mem.forward) (fetchDetail (D := Examples.policy) false group 20)
             Examples.db)
  = Err (UnexpectedNotFoundError "top reply of topic(group) 20").
Proof.
  apply (fetchDetail_no_top_post (D := Examples.policy) (St := Mem.forward)
           false group 20 Examples.db Examples.db Examples.db Examples.twin_a).
  - reflexivity.
  - reflexivity.
  - reflexivity.
Defined.

Lemma createTopicReply_refused_witness :
  let r := run (St := Mem.forward)
             (createTopicReply (M := PowRef.ref_math) 5000 group 999 8 "hello" 0 None)
             Examples.db in
  outcome r = Err EntityNotFoundError
  /\ store r = Examples.db
  /\ forallb is_read (accesses r) = true.
Proof.
  apply (createTopicReply_refused (M := PowRef.ref_math) (St := Mem.forward)
           5000 group 999 8 "hello" 0 None Examples.db Examples.db).
  right. reflexivity.
Defined.

Lemma fetchDetail_top_level_order_witness :
  exists d,
    outcome (run (St := Mem.forward) (fetchDetail (D := Examples.policy) false group 364)
               Examples.db) = Ok (Some d)
    /\ map IReply.id (ITopicDetails.replies d)
       = map GroupPost.id (List.filter (fun x => GroupPost.related x =? 0) rest_364).
Proof.
  apply (fetchDetail_top_level_order (D := Examples.policy) (St := Mem.forward)
           false group 364 Examples.db Examples.db Examples.db
           Examples.topic_364_of_1 top_364 rest_364).
  - exact policy_keeps_structure.
  - reflexivity.
  - reflexivity.
  - reflexivity.
Defined.

Lemma reply_then_thread_witness :
  let s' := store (run (St := Mem.forward)
                     (createTopicReply (M := PowRef.ref_math) 5000 group 30 8 "hello" 0 None)
                     Forum.db) in
  let row := saved_row Forum.db (saved_post 5000 30 8 "hello" 0 None) in
  exists det,
    outcome (run (St := Mem.forward) (fetchDetail (D := Examples.policy) false group 30) s')
    = Ok (Some det)
    /\ ITopicDetails.text det = "top"%string
    /\ ITopicDetails.replies det
       = topLevelReplies (D := Examples.policy) Forum.rest_30
         ++ [filterReply (Display := Examples.policy) (toReply (subReplies Forum.rest_30) row)].
Proof.
  apply (reply_then_thread (M := PowRef.ref_math) (D := Examples.policy)
           false group 5000 30 8 "hello" None Forum.db Forum.talk (Some 5000)
           Forum.top_30 Forum.rest_30).
  - reflexivity.
  - vm_compute. reflexivity.
  - reflexivity.
  - reflexivity.
Defined.

Lemma sub_reply_then_thread_witness :
  let s' := store (run (St := Mem.forward)
                     (createTopicReply (M := PowRef.ref_math) 5000 group 30 8 "hello" 2 None)
                     Forum.db) in
  let row := saved_row Forum.db (saved_post 5000 30 8 "hello" 2 None) in
  exists det,
    outcome (run (St := Mem.forward) (fetchDetail (D := Examples.policy) false group 30) s')
    = Ok (Some det)
    /\ map IReply.id (ITopicDetails.replies det)
       = map GroupPost.id (List.filter (fun x => GroupPost.related x =? 0) Forum.rest_30)
    /\ forall r, In r (ITopicDetails.replies det) ->
         shown_under r
         = map GroupPost.id (children (IReply.id r) Forum.rest_30)
           ++ (if IReply.id r =? 2 then [GroupPost.id row] else []).
Proof.
  apply (sub_reply_then_thread (M := PowRef.ref_math) (D := Examples.policy)
           false group 5000 30 8 "hello" 2 None Forum.db Forum.talk (Some 5000)
           Forum.top_30 Forum.rest_30).
  - exact policy_keeps_structure.
  - discriminate.
  - reflexivity.
  - vm_compute. reflexivity.
  - reflexivity.
  - reflexivity.
Defined.


Lemma fetchTopicList_only_listable_witness :
  exists x, In x (Mem.topics Examples.db) /\ toITopic Examples.twin_b = toITopic x
            /\ GroupTopic.gid x = 2
            /\ In (GroupTopic.display x) (ListTopicDisplays (Display := Examples.policy) false).
Proof.
  apply (fetchTopicList_only_listable (D := Examples.policy) false 2 (Page.mk None None)
           Examples.db 3 (map toITopic [Examples.twin_a; Examples.twin_b; Examples.older])).
  - vm_compute. reflexivity.
  - right. left. reflexivity.
Defined.

Lemma fetchTopicList_complete_witness :
  exists topics,
    outcome (run (St := Mem.forward)
               (fetchTopicList (D := Examples.policy) false group 2 (Page.mk None None))
               Examples.db)
    = Ok (Z.of_nat (length (listable (D := Examples.policy) false 2 Examples.db)), topics)
    /\ Permutation topics (map toITopic (listable (D := Examples.policy) false 2 Examples.db)).
Proof.
  apply (fetchTopicList_complete (D := Examples.policy) false 2 (Page.mk None None)
           Examples.db).
  - reflexivity.
  - vm_compute. discriminate.
Defined.


Lemma extractNameCN_first_item_witness :
  extractNameCN Catalogue.infobox = "魔法少女小圆"%string
  /\ extractNameCN (Wiki.mk [Catalogue.alias_item]) = EmptyString.
Proof.
  apply (extractNameCN_first_item [Catalogue.alias_item]
           [Wiki.mk_item "话数" (Some "12话"%string); Catalogue.later_item]
           Catalogue.name_item).
  - intros v [<- | []]. vm_compute. discriminate.
  - reflexivity.
Defined.

Lemma extractEpisode_no_item_witness :
  extractEpisode (Wiki.mk [Catalogue.alias_item; Catalogue.name_item]) = JS.Z2num 0.
Proof.
  apply (extractEpisode_no_item (Wiki.mk [Catalogue.alias_item; Catalogue.name_item])).
  intros v [<- | [<- | []]]; split; vm_compute; discriminate.
Defined.

Lemma extractEpisode_reads_decimal_witness :
  extractEpisode Catalogue.infobox = JS.Z2num 12.
Proof.
  apply (extractEpisode_reads_decimal [Catalogue.alias_item; Catalogue.name_item]
           [Catalogue.later_item] "话数" 12%N "话").
  - intros v [<- | [<- | []]]; split; vm_compute; discriminate.
  - left. reflexivity.
  - reflexivity.
  - reflexivity.
Defined.

Lemma platforms_are_the_table_witness :
  Permutation (map snd Catalogue.anime) (platforms (P := Catalogue.table) 2).
Proof.
  apply (platforms_are_the_table (P := Catalogue.table) 2 Catalogue.anime).
  reflexivity.
Defined.

Lemma platformString_listed_witness :
  In (Catalogue.mk_row 5 "web") (platforms (P := Catalogue.table) 2).
Proof.
  apply (platformString_listed (P := Catalogue.table) 2 2 (Catalogue.mk_row 5 "web")).
  reflexivity.
Defined.

Lemma edit_outside_sandbox_witness :
  erun (St := SubjectMem.store)
    (edit (W := Catalogue.library) 2 "book" Catalogue.infobox_text 1 "" "fix" None 7 5000)
    Catalogue.db
  = {| edit_outcome := Done tt; edit_store := Catalogue.db; edit_accesses := [] |}.
Proof.
  apply (edit_outside_sandbox (W := Catalogue.library) (St := SubjectMem.store)
           2 "book" Catalogue.infobox_text 1 "" "fix" None 7 5000 Catalogue.db).
  vm_compute. intuition discriminate.
Defined.

Lemma edit_invalid_infobox_witness :
  erun (St := SubjectMem.store)
    (edit (W := Catalogue.library) 184017 "Puella Magi" "{{Infobox" 1 "" "fix" None 7 5000)
    Catalogue.db
  = {| edit_outcome :=
         Failed (InvalidWikiSyntaxError "missing '}}' at the end (line: {{Infobox:3)");
       edit_store := Catalogue.db; edit_accesses := [] |}
  /\ error_location None (Some 3) = EmptyString.
Proof.
  apply (edit_invalid_infobox (W := Catalogue.library) (St := SubjectMem.store)
           184017 "Puella Magi" "{{Infobox" 1 "" "fix" None 7 5000 Catalogue.db
           "missing '}}' at the end" (Some "{{Infobox"%string) (Some 3)).
  - vm_compute. tauto.
  - reflexivity.
Defined.

Lemma edit_missing_subject_witness :
  erun (St := SubjectMem.store)
    (edit (W := Catalogue.library) 354677 "none" Catalogue.infobox_text 1 "" "fix" None 7
          5000) Catalogue.db
  = {| edit_outcome := Failed SubjectNotFoundError; edit_store := Catalogue.db;
       edit_accesses := [SubjectRepo_findOneBy 354677] |}.
Proof.
  apply (edit_missing_subject (W := Catalogue.library) (St := SubjectMem.store)
           354677 "none" Catalogue.infobox_text 1 "" "fix" None 7 5000
           Catalogue.db Catalogue.db Catalogue.infobox).
  - vm_compute. tauto.
  - reflexivity.
  - reflexivity.
Defined.

Lemma edit_all_or_nothing_witness :
  edit_store
    (erun (St := SubjectMem.store)
       (edit (W := Catalogue.library) 354677 "none" Catalogue.infobox_text 1 "" "fix" None 7
             5000) Catalogue.db)
  = Catalogue.db.
Proof.
  apply (edit_all_or_nothing (W := Catalogue.library) (St := SubjectMem.store)
           354677 "none" Catalogue.infobox_text 1 "" "fix" None 7 5000
           Catalogue.db SubjectNotFoundError).
  reflexivity.
Defined.

Lemma edit_stores_episode_count_witness :
  let r := erun (St := SubjectMem.store)
             (edit (W := Catalogue.library) 184017 "Madoka" Catalogue.infobox_text 1 "" "fix"
                   None 7 5000) Catalogue.db in
  edit_outcome r = Done tt
  /\ exists x',
       List.find (fun y => Subject.id y =? 184017) (SubjectMem.subjects (edit_store r))
       = Some x'
       /\ Subject.fieldEps x' = 12
       /\ Subject.nameCN x' = extractNameCN Catalogue.infobox
       /\ Subject.typeID x' = 2
       /\ Subject.name x' = "Madoka"%string.
Proof.
  apply (edit_stores_episode_count (W := Catalogue.library)
           184017 "Madoka" Catalogue.infobox_text 1 "" "fix" None 7 5000
           Catalogue.db Catalogue.madoka [Catalogue.alias_item; Catalogue.name_item]
           [Catalogue.later_item] "话数" 12%N "话").
  - vm_compute. tauto.
  - reflexivity.
  - intros v [<- | [<- | []]]; split; vm_compute; discriminate.
  - left. reflexivity.
  - reflexivity.
  - reflexivity.
  - reflexivity.
Defined.

End FurtherWitnesses.
